(** * Flight analytics job and its control-plane reader

    A shallow embedding of [pyspark/code_final_v1.py] (the batch job) and of
    the [/results] endpoint of [api/flask_app.py], with the properties the
    specification states about them.

    Python values are modelled as follows: [str] is [string] (compared
    bytewise, which on UTF-8 text is the code-point order Python uses),
    [int] is [Z], a [list] is a [list], a [dict] is a [gmap], [None] is
    [None : option _], and a raised exception is the [Raise] branch of
    [result].  An RDD is the list of its records. *)

From Stdlib Require Import Ascii.
From stdpp Require Import gmap strings list sorting pretty.
From Stdlib Require Import ZArith PrimInt63 PrimFloat.

#[local] Set Warnings "-clear-no-such-hyp".

(** ** Python built-ins used by the job *)

Module Py.

Inductive exn :=
| IndexError
| FileAlreadyExistsException (path : string)
| Exception (msg : string).

(** [str(e)] *)
Definition str_exn (e : exn) : string :=
  match e with
  | IndexError => "list index out of range"
  | FileAlreadyExistsException p => "Output directory " +:+ p +:+ " already exists"
  | Exception m => m
  end.

Inductive result (A : Type) :=
| Ok (a : A)
| Raise (e : exn).
Arguments Ok {A} a.
Arguments Raise {A} e.

#[global] Instance result_ret : MRet result := @Ok.
#[global] Instance result_bind : MBind result := λ A B f m,
  match m with
  | Ok a => f a
  | Raise e => Raise e
  end.
#[global] Instance result_fmap : FMap result := λ A B f m,
  match m with
  | Ok a => Ok (f a)
  | Raise e => Raise e
  end.

(** [try: body  except Exception as e: handler(e)] *)
Definition try_except {A} (body : result A) (handler : exn → result A) : result A :=
  match body with
  | Ok a => Ok a
  | Raise e => handler e
  end.

(** [s.split(sep)] for a one-character separator: never an empty list. *)
Fixpoint split (sep : ascii) (s : string) : list string :=
  match s with
  | EmptyString => [EmptyString]
  | String c s' =>
      if Ascii.eqb c sep then EmptyString :: split sep s'
      else match split sep s' with
           | [] => [String c EmptyString]
           | w :: ws => String c w :: ws
           end
  end.

(** [x[i]] for a non-negative constant or loop index [i]. *)
Definition getitem {A} (x : list A) (i : nat) : result A :=
  match x !! i with
  | Some a => Ok a
  | None => Raise IndexError
  end.

(** [range(a, b)] *)
Definition range (a b : nat) : list nat := seq a (b - a).

(** [str(n)] for a non-negative [int] *)
Definition str (n : nat) : string := pretty n.

(** Order of [str]: lexicographic on code points. *)
Definition str_le (a b : string) : Prop := String.leb a b.
Definition str_lt (a b : string) : Prop := String.ltb a b.

(** [set(l)]: the distinct elements. Python leaves the iteration order of a
    set open; the model fixes one. *)
Definition set (l : list string) : list string := remove_dups l.

(** [sorted(l)] on strings *)
Definition sorted (l : list string) : list string := merge_sort str_le l.

(** Comparison of the tuples [(int, str, str)] used as sort keys: the
    first component that differs decides. *)
Definition tuple_compare (k1 k2 : Z * string * string) : comparison :=
  let '(n1, a1, b1) := k1 in
  let '(n2, a2, b2) := k2 in
  match Z.compare n1 n2 with
  | Eq => match String.compare a1 a2 with
          | Eq => String.compare b1 b2
          | c => c
          end
  | c => c
  end.

Definition tuple_leb (k1 k2 : Z * string * string) : bool :=
  match tuple_compare k1 k2 with
  | Gt => false
  | _ => true
  end.

Definition tuple_le (k1 k2 : Z * string * string) : Prop := tuple_leb k1 k2.

End Py.

Export Py.

(** ** The RDD operations used by the job

    Spark fixes neither the order of the groups [groupByKey] returns nor the
    order in which [reduceByKey] combines the values of a key; the model
    fixes one order of the keys and takes the values of a key in input
    order. *)

Module RDD.

Section by_key.
Context {K : Type} `{EqDecision K} {V : Type}.

Definition values (k : K) (rdd : list (K * V)) : list V :=
  (filter (λ kv, kv.1 = k) rdd).*2.

Definition keys (rdd : list (K * V)) : list K := remove_dups rdd.*1.

Definition groupByKey (rdd : list (K * V)) : list (K * list V) :=
  (λ k, (k, values k rdd)) <$> keys rdd.

Definition reduce (f : V → V → V) (vs : list V) : option V :=
  match vs with
  | [] => None
  | v :: vs' => Some (foldl f v vs')
  end.

Definition reduceByKey (f : V → V → V) (rdd : list (K * V)) : list (K * V) :=
  omap (λ k, (λ v, (k, v)) <$> reduce f (values k rdd)) (keys rdd).
End by_key.

(** [rdd.map(f)] where [f] may raise: the first failing record aborts. *)
Definition map {A B} (f : A → result B) (rdd : list A) : result (list B) :=
  mapM f rdd.

Definition mapValues {K V W} (f : V → W) (rdd : list (K * V)) : list (K * W) :=
  prod_map id f <$> rdd.

Definition flatMap {A B} (f : A → list B) (rdd : list A) : list B :=
  rdd ≫= f.

(** [rdd.sortBy(keyfunc)]: ascending in the key. *)
Definition sortBy {A} (keyfunc : A → Z * string * string) (rdd : list A) : list A :=
  merge_sort (λ x y, tuple_le (keyfunc x) (keyfunc y)) rdd.

End RDD.

(** ** Problem 1: [co_occurring_airline_pairs_by_origin] *)

Abbreviation pair_count := ((string * string) * Z)%type.

Definition generate_pairs (airlines : list string) : list pair_count :=
  let u := sorted (set airlines) in
  i ← range 0 (length u);
  j ← range (i + 1) (length u);
  [((u !!! i, u !!! j), 1%Z)].

(** The lambda [x: ((x[0], x[2]), x[1])]. *)
Definition key_by_date_origin (x : list string) : result ((string * string) * string) :=
  x0 ← getitem x 0;
  x2 ← getitem x 2;
  x1 ← getitem x 1;
  Ok ((x0, x2), x1).

(** The lambda [x: (-x[1], x[0][0], x[0][1])]. *)
Definition sort_key (x : pair_count) : Z * string * string :=
  ((- x.2)%Z, x.1.1, x.1.2).

(** Everything up to and including [reduceByKey], on parsed records. *)
Definition aggregate (date_origin_airline : list ((string * string) * string)) : list pair_count :=
  let grouped_airlines := RDD.mapValues id (RDD.groupByKey date_origin_airline) in
  RDD.reduceByKey Z.add (RDD.flatMap (λ x, generate_pairs x.2) grouped_airlines).

Definition date_origin_airline_of (flights_data : list string)
  : result (list ((string * string) * string)) :=
  parsed_data ← RDD.map (λ line, Ok (split ","%char line)) flights_data;
  RDD.map key_by_date_origin parsed_data.

Definition co_occurring_airline_pairs_by_origin (flights_data : list string)
  : result (list pair_count) :=
  date_origin_airline ← date_origin_airline_of flights_data;
  Ok (RDD.sortBy sort_key (aggregate date_origin_airline)).

(** ** [main]: the top-10 document of problem 1 *)

Record p1_entry := P1Entry {
  flight_1 : string;
  flight_2 : string;
  common_origin : Z
}.

(** One step of the dict comprehension: [str(i + 1): {...top10[i]...}];
    [top10[i]] raises [IndexError] when [i] is past the end of the slice. *)
Definition p1_item (top10 : list pair_count) (acc : result (gmap string p1_entry))
    (i : nat) : result (gmap string p1_entry) :=
  d ← acc;
  e ← getitem top10 i;
  Ok (<[str (i + 1) := P1Entry e.1.1 e.1.2 e.2]> d).

(** [top10 = result_problem1[:10]] and the comprehension over [range(10)]. *)
Definition formatted_p1 (result_problem1 : list pair_count) : result (gmap string p1_entry) :=
  let top10 := take 10 result_problem1 in
  foldl (p1_item top10) (Ok ∅) (range 0 10).

Definition main_problem1 (flights_data : list string) : result (gmap string p1_entry) :=
  result_problem1 ← co_occurring_airline_pairs_by_origin flights_data;
  formatted_p1 result_problem1.

(** ** The durable sink: [delete_gcs_path] and [save_json_to_gcs]

    The object store is a map from the name of an output directory to the
    part files Spark wrote under it, one per partition, each the list of its
    text records. [fs.exists] and [fs.delete] never raise here. [print]
    appends to [stdout]. *)

Record world := World {
  objects : gmap string (list (list string));
  stdout : list string
}.

(** A command on the world: its result, or the exception it raised, and
    the world it leaves. *)
Record io (A : Type) := IO { run : world → result A * world }.
Arguments IO {A} run.
Arguments run {A} _ w.

#[global] Instance io_ret : MRet io := λ A a, IO (λ w, (Ok a, w)).
#[global] Instance io_bind : MBind io := λ A B f m, IO (λ w,
  match run m w with
  | (Ok a, w') => run (f a) w'
  | (Raise e, w') => (Raise e, w')
  end).

Definition io_raise {A} (e : exn) : io A := IO (λ w, (Raise e, w)).

(** A pure computation as a command. *)
Definition io_of {A} (r : result A) : io A := IO (λ w, (r, w)).

Definition io_try {A} (body : io A) (handler : exn → io A) : io A := IO (λ w,
  match run body w with
  | (Ok a, w') => (Ok a, w')
  | (Raise e, w') => run (handler e) w'
  end).

Definition print (line : string) : io unit := IO (λ w,
  (Ok (), World (objects w) (stdout w ++ [line]))).

(** [k] is the path [p] itself or lies below the directory [p]. *)
Definition under (p k : string) : Prop := k = p ∨ String.prefix (p +:+ "/") k.

#[global] Instance under_dec p k : Decision (under p k).
Proof. unfold under. apply _. Defined.

Definition fs_exists (path : string) : io bool := IO (λ w,
  (Ok (bool_decide (filter (λ kv, under path kv.1) (objects w) ≠ ∅)), w)).

(** [fs.delete(path, True)], the recursive delete: returns whether anything
    was there. *)
Definition fs_delete_recursive (path : string) : io bool := IO (λ w,
  (Ok (bool_decide (filter (λ kv, under path kv.1) (objects w) ≠ ∅)),
   World (filter (λ kv, ¬ under path kv.1) (objects w)) (stdout w))).

(** [sc.parallelize(data, numSlices)]: slice [i] is
    [data[i*n/numSlices : (i+1)*n/numSlices]]. *)
Definition parallelize {A} (data : list A) (numSlices : nat) : list (list A) :=
  let n := length data in
  (λ i, drop (i * n / numSlices) (take ((i + 1) * n / numSlices) data))
    <$> seq 0 numSlices.

(** The [spark] session the sink is handed: the calls into the JVM that
    turn a path string into a name of the store. They belong to Java and to
    Hadoop and are taken as given.
    - [java_net_URI s] is [spark._jvm.java.net.URI(s)]; it raises
      [URISyntaxException] for a string that is not a URI.
    - [fs_Path uri] is the name that [Path(uri.getPath())] has on
      [FileSystem.get(uri, hadoop_conf)]: the decoded path component of the
      URI on the file system of its scheme and authority. It raises what
      [FileSystem.get] and [Path] raise.
    - [hadoop_Path s] is the name of Hadoop's [Path(s)], the output directory
      of [saveAsTextFile(s)]. *)
Record SparkSession := {
  URI : Type;
  java_net_URI : string → result URI;
  fs_Path : URI → result string;
  hadoop_Path : string → result string
}.

Definition saveAsTextFile (spark : SparkSession) (rdd : list (list string))
    (path : string) : io unit :=
  output ← io_of (hadoop_Path spark path);
  b ← fs_exists output;
  if b : bool then io_raise (FileAlreadyExistsException output)
  else IO (λ w, (Ok (), World (<[output := rdd]> (objects w)) (stdout w))).

Definition delete_gcs_path (spark : SparkSession) (gcs_path : string) : io unit :=
  io_try
    (uri ← io_of (java_net_URI spark gcs_path);
     path ← io_of (fs_Path spark uri);
     b ← fs_exists path;
     if b : bool then
       _ ← fs_delete_recursive path;
       print (" Deleted: " +:+ gcs_path)
     else
       print (" Not found (OK): " +:+ gcs_path))
    (λ e, print (" Error deleting " +:+ gcs_path +:+ ": " +:+ str_exn e)).

Section sink.
(** The document type and its encoding,
    [json.dumps(json.loads(json.dumps(obj, default=str)), indent=2)],
    belong to Python's [json] module and are taken as given. *)
Context {Obj : Type} (json_str_of : Obj → string).

Definition save_json_to_gcs (spark : SparkSession) (obj : Obj) (gcs_path : string)
  : io unit :=
  _ ← delete_gcs_path spark gcs_path;
  let json_str := json_str_of obj in
  _ ← saveAsTextFile spark (parallelize [json_str] 1) gcs_path;
  print (" JSON saved to: " +:+ gcs_path).
End sink.

(** ** Problem 2: [air_flights_avg_airtime]

    A DataFrame is the list of its rows; a column value is [None] for SQL
    null and [AirTime] is a double. Conditions are three-valued, and
    [filter] keeps the rows whose condition is true. *)

Record flight_row := FlightRow {
  OriginCityName : option string;
  DestCityName : option string;
  AirTime : option float
}.

Module Sql.
Definition col_eq (c : option string) (lit : string) : option bool :=
  (λ v, bool_decide (v = lit)) <$> c.

Definition isNotNull {A} (c : option A) : option bool :=
  Some (bool_decide (is_Some c)).

(** [a & b] *)
Definition and (a b : option bool) : option bool :=
  match a, b with
  | Some false, _ | _, Some false => Some false
  | Some true, Some true => Some true
  | _, _ => None
  end.

Definition filter {R} (cond : R → option bool) (df : list R) : list R :=
  List.filter (λ r, bool_decide (cond r = Some true)) df.

Definition float_of_count (n : nat) : float :=
  PrimFloat.of_uint63 (Nat.iter n (PrimInt63.add 1) 0%uint63).

(** [agg(avg(c)).first()[...]]: the sum of the non-null values divided by
    their number, null when there is none. *)
Definition avg {R} (c : R → option float) (df : list R) : option float :=
  match omap c df with
  | [] => None
  | vs => Some (PrimFloat.div (foldl PrimFloat.add 0%float vs)
                              (float_of_count (length vs)))
  end.
End Sql.

(** Truth value of [None] or a [float]: false for [None], [0.0] and [-0.0]. *)
Definition truthy (x : option float) : bool :=
  match x with
  | None => false
  | Some v => negb (PrimFloat.eqb v 0%float)
  end.

Definition la_to_ny (r : flight_row) : option bool :=
  Sql.and (Sql.and (Sql.col_eq (OriginCityName r) "Los Angeles, CA")
                   (Sql.col_eq (DestCityName r) "New York, NY"))
          (Sql.isNotNull (AirTime r)).

(** [float(x) if x else 0.0]; [float] of a float is the float itself, and
    [None] never reaches it. *)
Definition air_flights_avg_airtime (flights : list flight_row) : float :=
  let df_avg_airtime := Sql.avg AirTime (Sql.filter la_to_ny flights) in
  if truthy df_avg_airtime then default 0%float df_avg_airtime else 0%float.

(** ** The [/results] endpoint of the control plane *)

#[local] Unset Elimination Schemes.
Inductive json :=
| JNull
| JBool (b : bool)
| JNum (n : Z)
| JStr (s : string)
| JArr (items : list json)
| JObj (fields : list (string * json)).
#[local] Set Elimination Schemes.

(** [d[k] = v] on a dict kept in insertion order. *)
Fixpoint dict_set {V} (k : string) (v : V) (d : list (string * V)) : list (string * V) :=
  match d with
  | [] => [(k, v)]
  | (k', v') :: d' =>
      if decide (k' = k) then (k, v) :: d' else (k', v') :: dict_set k v d'
  end.

(** [s.endswith(suffix)] *)
Definition endswith (s suffix : string) : bool :=
  let n := String.length s in
  let m := String.length suffix in
  bool_decide (m ≤ n)%nat && String.eqb (String.substring (n - m) m s) suffix.

(** [if path_prefix and not path_prefix.endswith('/'): path_prefix += '/'] *)
Definition with_slash (path_prefix : string) : string :=
  if bool_decide (path_prefix ≠ "") && negb (endswith path_prefix "/")
  then path_prefix +:+ "/" else path_prefix.

Section results_endpoint.
(** The storage client and [json.loads] are external: what a call answers,
    or raises, is given. [storage_client_bucket] is
    [storage_client.bucket(name)], which raises [ValueError] for a name that
    is not a bucket name; [blob_exists bucket path] and
    [download_as_text bucket path] are [bucket.blob(path).exists()] and
    [bucket.blob(path).download_as_text()]. An endpoint returns the dict it
    hands to [jsonify], and the status code. *)
Context (BUCKET_NAME : string).
Context {Bucket : Type}.
Context (storage_client_bucket : string → result Bucket).
Context (blob_exists : Bucket → string → result bool).
Context (download_as_text : Bucket → string → result string).
Context (json_loads : string → result json).

Definition not_found (bucket_name path : string) : json :=
  JObj [("error", JStr "File not found");
        ("path", JStr ("gs://" +:+ bucket_name +:+ "/" +:+ path))].

Definition read_error (e : exn) (bucket_name path : string) : json :=
  JObj [("error", JStr (str_exn e));
        ("path", JStr ("gs://" +:+ bucket_name +:+ "/" +:+ path))].

(** One of the two [try] blocks: reads [path] into [results[name]]. *)
Definition read_problem (bucket : Bucket) (bucket_name name path : string)
    (st : list (string * json) * bool) : list (string * json) * bool :=
  let '(results, client_error) := st in
  match
    try_except
      (b ← blob_exists bucket path;
       if b : bool then
         content ← download_as_text bucket path;
         parsed ← json_loads content;
         Ok (dict_set name parsed results, client_error)
       else
         Ok (dict_set name (not_found bucket_name path) results, true))
      (λ e, Ok (dict_set name (read_error e bucket_name path) results, client_error))
  with
  | Ok st' => st'
  | Raise _ => st
  end.

Definition get_results (args : gmap string string) : result (json * nat) :=
  try_except
    (let bucket_name := default BUCKET_NAME (args !! "bucket") in
     let path_prefix := with_slash (default "" (args !! "path")) in
     let problem_1_path := path_prefix +:+ "problem1/part-00000" in
     let problem_2_path := path_prefix +:+ "problem2/part-00000" in
     bucket ← storage_client_bucket bucket_name;
     let st := ([], false) in
     let st := read_problem bucket bucket_name "problem_1" problem_1_path st in
     let '(results, client_error) :=
       read_problem bucket bucket_name "problem_2" problem_2_path st in
     Ok (JObj [("status", JStr (if client_error then "client_error" else "success"));
               ("bucket", JStr bucket_name);
               ("results", JObj results)],
         if client_error then 400 else 200))
    (λ e, Ok (JObj [("status", JStr "error"); ("message", JStr (str_exn e))], 500)).
End results_endpoint.

(** ** Definitions used to state the properties *)

(** A three-way comparison that decides a strict total order. *)
Class Compare (A : Type) := cmp : A → A → comparison.
#[global] Hint Mode Compare ! : typeclass_instances.

Class Comparison (A : Type) `{Compare A} := {
  cmp_eq (x y : A) : cmp x y = Eq ↔ x = y;
  cmp_opp (x y : A) : cmp y x = CompOpp (cmp x y);
  cmp_lt_trans (x y z : A) : cmp x y = Lt → cmp y z = Lt → cmp x z = Lt
}.
#[global] Hint Mode Comparison ! - : typeclass_instances.

(** Lexicographic composition, as in the comparison of tuples and strings. *)
Definition lex (c1 c2 : comparison) : comparison :=
  match c1 with Eq => c2 | _ => c1 end.

#[global] Instance Z_compare : Compare Z := Z.compare.
#[global] Instance ascii_compare : Compare ascii := Ascii.compare.
#[global] Instance string_compare : Compare string := String.compare.
#[global] Instance pair_compare `{Compare A, Compare B} : Compare (A * B) :=
  λ p q, lex (cmp p.1 q.1) (cmp p.2 q.2).

Definition cmp_le `{Compare A} (x y : A) : Prop := cmp x y ≠ Gt.
Definition cmp_lt `{Compare A} (x y : A) : Prop := cmp x y = Lt.

(** Every pair of an earlier and a later element: what the comprehension of
    [generate_pairs] enumerates. *)
Fixpoint pairs_of {A} (u : list A) : list (A * A) :=
  match u with
  | [] => []
  | x :: u' => ((λ y, (x, y)) <$> u') ++ pairs_of u'
  end.

Definition sumZ (vs : list Z) : Z := foldr Z.add 0%Z vs.

(** The record a line with at least three fields is parsed to. *)
Definition record_of (line : string) : (string * string) * string :=
  let x := split ","%char line in ((x !!! 0, x !!! 2), x !!! 1).

Definition has_three_fields (line : string) : Prop :=
  3 ≤ length (split ","%char line).

(** The distinct (date, origin) groups of the records. *)
Definition groups (recs : list ((string * string) * string)) : list (string * string) :=
  remove_dups recs.*1.

(** The number of distinct (date, origin) groups in which both airlines
    appear. *)
Definition co_occurrence_count (recs : list ((string * string) * string))
    (a b : string) : nat :=
  length (filter (λ g, (g, a) ∈ recs ∧ (g, b) ∈ recs) (groups recs)).

(** The ranking of the specification: higher count first, then the first
    code ascending, then the second code ascending. *)
Definition ranked_before (x y : pair_count) : Prop :=
  (y.2 < x.2)%Z ∨
  (x.2 = y.2 ∧ (str_lt x.1.1 y.1.1 ∨ (x.1.1 = y.1.1 ∧ str_lt x.1.2 y.1.2))).

(** Merging two aggregated results by summing the counts of equal keys. *)
Definition merge_counts (out1 out2 : list pair_count) : list pair_count :=
  RDD.reduceByKey Z.add (out1 ++ out2).

(** The order [sortBy] sorts by, on the records themselves. *)
Definition key_le (x y : pair_count) : Prop := tuple_le (sort_key x) (sort_key y).

(** The two record lists share no (date, origin) group. *)
Definition groups_apart (recs1 recs2 : list ((string * string) * string)) : Prop :=
  ∀ g, g ∈ recs1.*1 → g ∉ recs2.*1.

(** The object written for one ranked entry. *)
Definition entry_of (e : pair_count) : p1_entry := P1Entry e.1.1 e.1.2 e.2.

(** The dict the comprehension builds when no index fails. *)
Definition p1_dict (top10 : list pair_count) (indices : list nat)
    (d : gmap string p1_entry) : gmap string p1_entry :=
  foldl (λ d i, <[str (i + 1) := entry_of (top10 !!! i)]> d) d indices.

(** The line [date,airline,origin]. *)
Definition line_of (date airline origin : string) : string :=
  date +:+ "," +:+ airline +:+ "," +:+ origin.

(** The string holds no comma. *)
Fixpoint comma_free (s : string) : Prop :=
  match s with
  | EmptyString => True
  | String c s' => c ≠ ","%char ∧ comma_free s'
  end.

(** The store once everything at or below [path] is removed. *)
Definition cleared (path : string) (m : gmap string (list (list string)))
  : gmap string (list (list string)) :=
  filter (λ kv, ¬ under path kv.1) m.

(** The name [delete_gcs_path] looks for: that of the path component of
    the URI. *)
Definition delete_target (spark : SparkSession) (gcs_path : string) : result string :=
  uri ← java_net_URI spark gcs_path;
  fs_Path spark uri.

(** Deleting and writing [gcs_path] act on the one name [k]: the path
    component of the URI names what Hadoop's [Path] of the string names. *)
Definition acts_on (spark : SparkSession) (gcs_path k : string) : Prop :=
  delete_target spark gcs_path = Ok k ∧ hadoop_Path spark gcs_path = Ok k.

(** What [delete_gcs_path] prints when it looked for [k]. *)
Definition delete_message (gcs_path k : string) (m : gmap string (list (list string)))
  : string :=
  if bool_decide (filter (λ kv, under k kv.1) m ≠ ∅)
  then " Deleted: " +:+ gcs_path else " Not found (OK): " +:+ gcs_path.

(** What [delete_gcs_path] leaves of the store, and what it prints. *)
Definition after_delete (spark : SparkSession) (gcs_path : string) (w : world) : world :=
  match delete_target spark gcs_path with
  | Ok k =>
      World (cleared k (objects w))
            (stdout w ++ [delete_message gcs_path k (objects w)])
  | Raise e =>
      World (objects w)
            (stdout w ++ [" Error deleting " +:+ gcs_path +:+ ": " +:+ str_exn e])
  end.

(** The example of the specification: AA and DL at LAX on the first day,
    AA, DL (twice) and UA on the second. *)
Definition example_lines : list string :=
  ["2021-01-01,AA,LAX"; "2021-01-01,DL,LAX"; "2021-01-02,UA,LAX";
   "2021-01-02,AA,LAX"; "2021-01-02,DL,LAX"; "2021-01-02,DL,LAX"].

Definition example_result : list pair_count :=
  [(("AA", "DL"), 2%Z); (("AA", "UA"), 1%Z); (("DL", "UA"), 1%Z)].

(** Five airlines at one airport on one day: ten pairs. *)
Definition five_airlines : list string :=
  ["2021-03-01,UA,JFK"; "2021-03-01,AA,JFK"; "2021-03-01,DL,JFK";
   "2021-03-01,B6,JFK"; "2021-03-01,WN,JFK"].

Definition ten_pairs : list pair_count :=
  [(("AA", "B6"), 1%Z); (("AA", "DL"), 1%Z); (("AA", "UA"), 1%Z);
   (("AA", "WN"), 1%Z); (("B6", "DL"), 1%Z); (("B6", "UA"), 1%Z);
   (("B6", "WN"), 1%Z); (("DL", "UA"), 1%Z); (("DL", "WN"), 1%Z);
   (("UA", "WN"), 1%Z)].

Ltac by_computation := apply (bool_decide_unpack _); vm_compute; exact I.

(** The row is a Los Angeles to New York flight with a recorded airtime. *)
Definition la_ny_timed (r : flight_row) : Prop :=
  OriginCityName r = Some "Los Angeles, CA" ∧
  DestCityName r = Some "New York, NY" ∧
  AirTime r ≠ None.

(** The airline field of a line, and its (date, origin) group. *)
Definition airline_of (line : string) : string := (record_of line).2.
Definition group_of (line : string) : string * string := (record_of line).1.

(** The number of commas in a line. *)
Fixpoint commas (s : string) : nat :=
  match s with
  | EmptyString => 0
  | String c s' => (if Ascii.eqb c ","%char then 1 else 0) + commas s'
  end.

(** The answer of [blob.exists()] says that the file is not there. *)
Definition is_missing (r : result bool) : bool :=
  match r with
  | Ok false => true
  | _ => false
  end.

Section results_reading.
Context {Bucket : Type}.
Context (blob_exists : Bucket → string → result bool).
Context (download_as_text : Bucket → string → result string).
Context (json_loads : string → result json).

(** Reading [path] raises [e]: in [exists], in the download or in the
    parser. *)
Definition read_raises (bucket : Bucket) (path : string) (e : exn) : Prop :=
  blob_exists bucket path = Raise e ∨
  (blob_exists bucket path = Ok true ∧
   (download_as_text bucket path = Raise e ∨
    ∃ content, download_as_text bucket path = Ok content ∧
               json_loads content = Raise e)).

(** [path] is there and holds the JSON value [parsed]. *)
Definition reads_as (bucket : Bucket) (path : string) (parsed : json) : Prop :=
  blob_exists bucket path = Ok true ∧
  ∃ content, download_as_text bucket path = Ok content ∧
             json_loads content = Ok parsed.
End results_reading.

(** ** The other endpoints of the control plane

    The Dataproc job service is external and has a state of its own, of
    some type [S]: a call to it returns, or raises, and leaves a state. An
    endpoint is a command on that state. *)

Record stateful (S A : Type) := Stateful { run_on : S → result A * S }.
Arguments Stateful {S A} run_on.
Arguments run_on {S A} _ s.

#[global] Instance stateful_ret {S} : MRet (stateful S) :=
  λ A a, Stateful (λ s, (Ok a, s)).
#[global] Instance stateful_bind {S} : MBind (stateful S) := λ A B f m,
  Stateful (λ s,
    match run_on m s with
    | (Ok a, s') => run_on (f a) s'
    | (Raise e, s') => (Raise e, s')
    end).

(** A computation that does not touch the service. *)
Definition pure_step {S A} (r : result A) : stateful S A := Stateful (λ s, (r, s)).

Definition stateful_try {S A} (body : stateful S A) (handler : exn → stateful S A)
  : stateful S A :=
  Stateful (λ s,
    match run_on body s with
    | (Ok a, s') => (Ok a, s')
    | (Raise e, s') => run_on (handler e) s'
    end).

(** [d.get(k)] on a dict kept in insertion order. *)
Fixpoint dict_get {V} (k : string) (d : list (string * V)) : option V :=
  match d with
  | [] => None
  | (k', v) :: d' => if decide (k' = k) then Some v else dict_get k d'
  end.

(** Truth value of a decoded JSON value. *)
Definition json_truthy (v : json) : bool :=
  match v with
  | JNull => false
  | JBool b => b
  | JNum n => bool_decide (n ≠ 0%Z)
  | JStr s => bool_decide (s ≠ "")
  | JArr items => bool_decide (items ≠ [])
  | JObj fields => bool_decide (fields ≠ [])
  end.

Definition is_JStr (key : string) (v : json) : bool :=
  match v with
  | JStr s => String.eqb s key
  | _ => false
  end.

Section json_access.
(** The text of the [TypeError] or [AttributeError] Python raises when the
    operation ([in], a subscript with a string, [.get]) meets a value that
    does not support it; the wording depends on the Python version and is
    given. *)
Context (unsupported : string → json → string).

(** [key in data] *)
Definition json_contains (key : string) (data : json) : result bool :=
  match data with
  | JObj fields => Ok (bool_decide (is_Some (dict_get key fields)))
  | JArr items => Ok (existsb (is_JStr key) items)
  | JStr s => Ok (bool_decide (is_Some (String.index 0 key s)))
  | _ => Raise (Exception (unsupported "in" data))
  end.

(** [data[key]] *)
Definition json_getitem (data : json) (key : string) : result json :=
  match data with
  | JObj fields =>
      match dict_get key fields with
      | Some v => Ok v
      | None => Raise (Exception ("'" +:+ key +:+ "'"))
      end
  | _ => Raise (Exception (unsupported "[]" data))
  end.

(** [data.get(key, default)] *)
Definition json_get (data : json) (key : string) (fallback : json) : result json :=
  match data with
  | JObj fields => Ok (default fallback (dict_get key fields))
  | _ => Raise (Exception (unsupported ".get" data))
  end.
End json_access.

Definition error_500 (e : exn) : json * nat :=
  (JObj [("status", JStr "error"); ("message", JStr (str_exn e))], 500).

Section create_job.
Context (unsupported : string → json → string).
Context (CLUSTER_NAME : string).
Context {S : Type}.
(** [PySparkJob(...)], [Job(...)] and [job_client.submit_job(...)] on the
    main file, the arguments and the cluster name; the answer is
    [result.reference.job_id]. *)
Context (submit_job : json → json → json → S → result string * S).

(** [request_json] is what [request.get_json()] returns or raises. *)
Definition create_job (request_json : result json) : stateful S (json * nat) :=
  stateful_try
    (data ← pure_step request_json;
     missing ← pure_step
       (if negb (json_truthy data) then Ok true
        else negb <$> json_contains unsupported "main_python_file" data);
     if missing : bool then
       mret (JObj [("error", JStr "Missing required field: main_python_file")], 400)
     else
       main_python_file ← pure_step (json_getitem unsupported data "main_python_file");
       args ← pure_step (json_get unsupported data "args" (JArr []));
       cluster_name ← pure_step
         (json_get unsupported data "cluster_name" (JStr CLUSTER_NAME));
       job_id ← Stateful (submit_job main_python_file args cluster_name);
       mret (JObj [("status", JStr "success");
                   ("message", JStr "Job submitted successfully");
                   ("job_id", JStr job_id);
                   ("cluster", cluster_name);
                   ("main_file", main_python_file)],
             201))
    (λ e, mret (error_500 e)).
End create_job.

(** The lifecycle states of a Dataproc job. *)
Inductive job_state :=
| STATE_UNSPECIFIED | PENDING | SETUP_DONE | RUNNING | CANCEL_PENDING
| CANCEL_STARTED | CANCELLED | DONE | ERROR | ATTEMPT_FAILURE.

(** [state.name] *)
Definition state_name (st : job_state) : string :=
  match st with
  | STATE_UNSPECIFIED => "STATE_UNSPECIFIED"
  | PENDING => "PENDING"
  | SETUP_DONE => "SETUP_DONE"
  | RUNNING => "RUNNING"
  | CANCEL_PENDING => "CANCEL_PENDING"
  | CANCEL_STARTED => "CANCEL_STARTED"
  | CANCELLED => "CANCELLED"
  | DONE => "DONE"
  | ERROR => "ERROR"
  | ATTEMPT_FAILURE => "ATTEMPT_FAILURE"
  end.

Record pyspark_job := PySparkJob {
  main_python_file_uri : string;
  pyspark_args : list string
}.

(** The fields of a job the endpoint reads. [state_start_time] holds the
    text [str] gives for the time stamp, [None] when there is none;
    [pyspark_job] is [None] for a job with no PySpark part. *)
Record job := Job {
  reference_job_id : string;
  status_state : job_state;
  status_details : string;
  status_state_start_time : option string;
  placement_cluster_name : string;
  job_pyspark_job : option pyspark_job;
  driver_output_resource_uri : string
}.

Definition json_of_option (o : option string) : json :=
  match o with
  | Some s => JStr s
  | None => JNull
  end.

Section get_job_status.
Context {S : Type}.
(** [job_client.get_job(project_id=..., region=..., job_id=job_id)] *)
Context (get_job : string → S → result job * S).

(** The response dict of a job, built key after key. *)
Definition job_response (j : job) : list (string * json) :=
  let response :=
    [("job_id", JStr (reference_job_id j));
     ("status", JStr (state_name (status_state j)));
     ("cluster", JStr (placement_cluster_name j));
     ("details", if bool_decide (status_details j ≠ "")
                 then JStr (status_details j) else JNull);
     ("state_start_time", json_of_option (status_state_start_time j))] in
  let response :=
    match job_pyspark_job j with
    | Some p =>
        let response := dict_set "main_python_file" (JStr (main_python_file_uri p)) response in
        if bool_decide (pyspark_args p ≠ [])
        then dict_set "args" (JArr (JStr <$> pyspark_args p)) response
        else response
    | None => response
    end in
  let response :=
    if bool_decide (driver_output_resource_uri j ≠ "")
    then dict_set "driver_output_uri" (JStr (driver_output_resource_uri j)) response
    else response in
  match status_state j with
  | DONE => dict_set "completed" (JBool true) response
  | ERROR => dict_set "failed" (JBool true) (dict_set "completed" (JBool true) response)
  | _ => dict_set "completed" (JBool false) response
  end.

(** [if not job_id] holds for a missing and for an empty parameter. *)
Definition get_job_status (args : gmap string string) : stateful S (json * nat) :=
  stateful_try
    (match args !! "job_id" with
     | None | Some EmptyString =>
         mret (JObj [("error", JStr "Missing required parameter: job_id")], 400)
     | Some job_id =>
         j ← Stateful (get_job job_id);
         mret (JObj (job_response j), 200)
     end)
    (λ e, mret (error_500 e)).
End get_job_status.

#[global] Instance job_state_eq_dec : EqDecision job_state.
Proof. solve_decision. Defined.

(** ** Problem 2: the other queries

    A row of the flights table with the columns the queries read; the three
    columns of [air_flights_avg_airtime] are those of [route]. *)

Record date := Date { year : Z; month : Z; dayofmonth : Z }.

#[global] Instance date_eq_dec : EqDecision date.
Proof. solve_decision. Defined.

Record flight := Flight {
  FlightDate : option date;
  Airline : option string;
  Cancelled : option bool;
  Diverted : option bool;
  DepTime : option float;
  route : flight_row
}.

Module Col.
(** [c == lit], [c >= lit] and [c <= lit]: null when the column is null. *)
Definition eq {A} `{EqDecision A} (c : option A) (lit : A) : option bool :=
  (λ v, bool_decide (v = lit)) <$> c.

Definition ge (c : option Z) (lit : Z) : option bool :=
  (λ v, bool_decide (lit ≤ v)%Z) <$> c.

Definition le (c : option Z) (lit : Z) : option bool :=
  (λ v, bool_decide (v ≤ lit)%Z) <$> c.

Definition isNull {A} (c : option A) : option bool :=
  Some (bool_decide (c = None)).

(** [groupBy(key).agg(count("*"))]: one row per distinct key, null
    included, with the number of rows that have it. *)
Definition groupBy_count {R K} `{EqDecision K} (key : R → K) (df : list R)
  : list (K * nat) :=
  (λ k, (k, length (filter (λ r, key r = k) df))) <$> remove_dups (key <$> df).

(** The row [x] has at least the count of the row [y]. *)
Definition count_ge {K} (x y : K * nat) : Prop := (y.2 ≤ x.2)%nat.

#[global] Instance count_ge_dec {K} (x y : K * nat) : Decision (count_ge x y).
Proof. unfold count_ge. apply _. Defined.

(** [orderBy(col(count).desc())]; Spark leaves the order of rows with the
    same count open, the model fixes one. *)
Definition orderBy_count_desc {K} (df : list (K * nat)) : list (K * nat) :=
  merge_sort count_ge df.

(** [agg(countDistinct(c))]: the number of distinct non-null values. *)
Definition countDistinct {R A} `{EqDecision A} (c : R → option A) (df : list R) : Z :=
  Z.of_nat (length (remove_dups (omap c df))).
End Col.

(** The condition of the two cancellation queries, for a month of 2021. *)
Definition cancelled_in_month (m : Z) (r : flight) : option bool :=
  Sql.and (Sql.and (Col.eq (year <$> FlightDate r) 2021%Z)
                   (Col.eq (month <$> FlightDate r) m))
          (Col.eq (Cancelled r) true).

(** The body the two cancellation queries share: the airline of the first
    row, [""] when there is no row. The result is [None] when that airline
    is null. *)
Definition most_canceled_in_month (m : Z) (flights : list flight) : option string :=
  let df :=
    head (Col.orderBy_count_desc
            (Col.groupBy_count Airline (Sql.filter (cancelled_in_month m) flights))) in
  match df with
  | Some row => row.1
  | None => Some ""
  end.

Definition air_flights_most_canceled_flights (flights : list flight) : option string :=
  most_canceled_in_month 1 flights.

Definition air_flights_most_canceled_flights_november (flights : list flight)
  : option string :=
  most_canceled_in_month 11 flights.

Definition diverted_in_november (r : flight) : option bool :=
  Sql.and
    (Sql.and
       (Sql.and
          (Sql.and (Col.eq (year <$> FlightDate r) 2021%Z)
                   (Col.eq (month <$> FlightDate r) 11%Z))
          (Col.ge (dayofmonth <$> FlightDate r) 1))
       (Col.le (dayofmonth <$> FlightDate r) 30))
    (Col.eq (Diverted r) true).

Definition air_flights_diverted_flights (flights : list flight) : Z :=
  Z.of_nat (length (Sql.filter diverted_in_november flights)).

(** [int(x) if x else 0] on the count. *)
Definition air_flights_missing_departure_time (flights : list flight) : Z :=
  let unique :=
    Col.countDistinct FlightDate (Sql.filter (λ r, Col.isNull (DepTime r)) flights) in
  if bool_decide (unique ≠ 0%Z) then unique else 0%Z.

(** The flight has a date, and it lies in the month [m] of 2021. *)
Definition in_month_2021 (m : Z) (r : flight) : Prop :=
  ∃ d, FlightDate r = Some d ∧ year d = 2021%Z ∧ month d = m.

#[global] Instance in_month_2021_dec m r : Decision (in_month_2021 m r).
Proof.
  unfold in_month_2021. destruct (FlightDate r) as [d|].
  - destruct (decide (year d = 2021%Z ∧ month d = m)) as [H|H].
    + left. destruct H. eauto.
    + right. intros (d' & [= <-] & ? & ?). tauto.
  - right. by intros (d & ? & _).
Defined.

(** The flight was cancelled, or diverted, in the month [m] of 2021. *)
Definition cancelled_in (m : Z) (r : flight) : Prop :=
  Cancelled r = Some true ∧ in_month_2021 m r.

Definition diverted_in (m : Z) (r : flight) : Prop :=
  Diverted r = Some true ∧ in_month_2021 m r.

(** The number of flights of the airline cancelled in the month. *)
Definition cancellations (m : Z) (flights : list flight) (a : option string) : nat :=
  length (filter (λ r, cancelled_in m r ∧ Airline r = a) flights).

(** The days of a month of the calendar. *)
Definition days_in_month (y m : Z) : Z :=
  if bool_decide (m = 2)%Z then
    if bool_decide ((y mod 4 = 0 ∧ y mod 100 ≠ 0) ∨ y mod 400 = 0)%Z then 29 else 28
  else if bool_decide (m = 4 ∨ m = 6 ∨ m = 9 ∨ m = 11)%Z then 30 else 31.

Definition calendar_date (d : date) : Prop :=
  (1 ≤ month d ≤ 12 ∧ 1 ≤ dayofmonth d ≤ days_in_month (year d) (month d))%Z.

(** ** [main] *)

(** [s.lstrip(c)], [s.rstrip(c)] and [s.strip(c)] for one character. *)
Fixpoint lstrip (c : ascii) (s : string) : string :=
  match s with
  | EmptyString => EmptyString
  | String a s' => if Ascii.eqb a c then lstrip c s' else s
  end.

Fixpoint rstrip (c : ascii) (s : string) : string :=
  match s with
  | EmptyString => EmptyString
  | String a s' =>
      match rstrip c s' with
      | EmptyString => if Ascii.eqb a c then EmptyString else String a EmptyString
      | t => String a t
      end
  end.

Definition strip (c : ascii) (s : string) : string := rstrip c (lstrip c s).

(** [f"{x}"] for a value that is a [str] or [None]. *)
Definition fstr (x : option string) : string := default "None" x.

Section main.
(** [SparkSession.builder.appName("Airlines-Analysis").getOrCreate()] *)
Context (spark : SparkSession).
(** [os.getenv("BUCKET_NAME")], [None] when unset, and
    [os.getenv("GCS_BASE_PATH", "Project_dataproc")]. *)
Context (GCS_BUCKET : option string) (GCS_BASE_PATH : string).
(** Reading the two input files may raise. *)
Context (textFile : string → result (list string)).
Context (read_csv : string → result (list flight)).
(** [str] of a float, and the JSON encoding of the two documents. *)
Context (float_str : float → string).
Context (json_p1 : gmap string p1_entry → string).
Context (json_p2 : list (string * string) → string).

Definition gcs (parts : list (option string)) : string :=
  let prefix := String.concat "/" (strip "/" <$> omap id parts) in
  "gs://" +:+ fstr GCS_BUCKET +:+ "/" +:+ prefix.

(** The five answers, each the one entry of a dict of its own. *)
Definition result_problem2 (flights : list flight) : list (string * string) :=
  let q1 := fstr (air_flights_most_canceled_flights flights)
            +:+ " had the most canceled flights in January 2021." in
  let q2 := pretty (air_flights_diverted_flights flights)
            +:+ " flights were diverted between the period of 1st-30th November 2021." in
  let q3 := float_str (air_flights_avg_airtime (route <$> flights))
            +:+ " is the average airtime for flights that were flying from Los Angeles to New York." in
  let q4 := pretty (air_flights_missing_departure_time flights)
            +:+ " unique dates where departure time (DepTime) was not recorded." in
  let q5 := fstr (air_flights_most_canceled_flights_november flights)
            +:+ " had the most canceled flights in November 2021." in
  [("q1", q1); ("q2", q2); ("q3", q3); ("q4", q4); ("q5", q5)].

(** [spark.stop()], the last step, has no effect on the store. *)
Definition main : io unit :=
  let airline_textfile := gcs [Some GCS_BASE_PATH; Some "flights_data.txt"] in
  let airline_csvfile := gcs [Some GCS_BASE_PATH; Some "flights_data.csv"] in
  _ ← print "=================== PROBLEM 1 ===================";
  flights_data ← io_of (textFile airline_textfile);
  result_problem1 ← io_of (co_occurring_airline_pairs_by_origin flights_data);
  formatted ← io_of (formatted_p1 result_problem1);
  _ ← save_json_to_gcs json_p1 spark formatted
        (gcs [Some GCS_BASE_PATH; Some "problem1"]);
  _ ← print "=================== PROBLEM 2 ===================";
  flights ← io_of (read_csv airline_csvfile);
  save_json_to_gcs json_p2 spark (result_problem2 flights)
    (gcs [Some GCS_BASE_PATH; Some "problem2"]).
End main.

(** [n] slashes. *)
Fixpoint slashes (n : nat) : string :=
  match n with
  | 0 => EmptyString
  | S n' => String "/" (slashes n')
  end.

(** The banners [main] prints. *)
Definition banner_1 : string := "=================== PROBLEM 1 ===================".
Definition banner_2 : string := "=================== PROBLEM 2 ===================".

(** ** Inputs of the further examples *)

(** A job service for the examples: its state is the number of jobs it
    has accepted; it refuses a job whose cluster is not a string, and knows
    the job ["job-0"] as done and no other job. *)
Definition example_unsupported (op : string) (data : json) : string :=
  "unsupported operand for " +:+ op.

Definition example_submit_job (main_python_file args cluster_name : json) (n : nat)
  : result string * nat :=
  match cluster_name with
  | JStr _ => (Ok ("job-" +:+ pretty n), S n)
  | _ => (Raise (Exception "400 Invalid cluster name"), n)
  end.

Definition example_job : job :=
  Job "job-0" DONE "" (Some "2021-12-01 10:00:00+00:00") "cluster-dataproc"
    (Some (PySparkJob "gs://bucket/code_final_v1.py" [])) "gs://bucket/driveroutput".

Definition example_get_job (job_id : string) (n : nat) : result job * nat :=
  if bool_decide (job_id = "job-0") then (Ok example_job, n)
  else (Raise (Exception ("404 Not found: Job " +:+ job_id)), n).

(** A session for the examples. Its URI constructor refuses a string
    with a space, as [java.net.URI] does; the path of a URI is the string
    with its percent escapes decoded, and Hadoop's [Path] of a string is the
    string as it is. *)
Definition hex_digit (c : ascii) : option N :=
  let n := N_of_ascii c in
  if bool_decide (48 ≤ n ≤ 57)%N then Some (n - 48)%N
  else if bool_decide (65 ≤ n ≤ 70)%N then Some (n - 55)%N
  else if bool_decide (97 ≤ n ≤ 102)%N then Some (n - 87)%N
  else None.

Fixpoint percent_decode (s : string) : string :=
  match s with
  | EmptyString => EmptyString
  | String c t =>
      match t with
      | String h (String l s') =>
          match hex_digit h, hex_digit l with
          | Some a, Some b =>
              if Ascii.eqb c "%"%char
              then String (ascii_of_N (16 * a + b)) (percent_decode s')
              else String c (percent_decode t)
          | _, _ => String c (percent_decode t)
          end
      | _ => String c (percent_decode t)
      end
  end.

Definition example_spark : SparkSession := {|
  URI := string;
  java_net_URI s :=
    if bool_decide (is_Some (String.index 0 " " s))
    then Raise (Exception "java.net.URISyntaxException: Illegal character in path")
    else Ok s;
  fs_Path uri := Ok (percent_decode uri);
  hadoop_Path s := Ok s
|}.

(** A storage client for the examples: a bucket is its name, and a name
    that starts with an underscore is refused, as the client does. *)
Definition example_bucket (name : string) : result string :=
  if String.prefix "_" name
  then Raise (Exception "Bucket names must start and end with a number or letter.")
  else Ok name.

(** A small flights table. *)
Definition example_flights : list flight :=
  [Flight (Some (Date 2021 11 30)) (Some "AA") (Some false) (Some true) None
     (FlightRow (Some "Los Angeles, CA") (Some "New York, NY") None);
   Flight (Some (Date 2021 11 2)) (Some "DL") (Some true) (Some false) None
     (FlightRow (Some "Boston, MA") (Some "New York, NY") None);
   Flight (Some (Date 2021 1 15)) (Some "DL") (Some true) (Some true) (Some 930%float)
     (FlightRow (Some "Los Angeles, CA") (Some "New York, NY") (Some 300%float));
   Flight None (Some "UA") None (Some true) None
     (FlightRow None None None)].

(** * Properties *)

(** ** Orders from three-way comparisons *)

Section comparison.
Context `{Comparison A}.
Implicit Types x y z : A.

Lemma cmp_refl x : cmp x x = Eq.
Proof. by apply cmp_eq. Qed.

Lemma cmp_gt_lt x y : cmp x y = Gt ↔ cmp y x = Lt.
Proof. rewrite (cmp_opp x y). destruct (cmp x y); simpl; split; congruence. Qed.

#[global] Instance cmp_le_trans : Transitive (cmp_le (A:=A)).
Proof.
  unfold cmp_le. intros x y z Hxy Hyz Hxz. apply cmp_gt_lt in Hxz.
  destruct (cmp x y) eqn:Exy; [| |done].
  - apply cmp_eq in Exy as ->. by apply cmp_gt_lt in Hxz.
  - destruct (cmp y z) eqn:Eyz; [| |done].
    + apply cmp_eq in Eyz as ->. apply cmp_gt_lt in Hxz. congruence.
    + pose proof (cmp_lt_trans _ _ _ Exy Eyz) as Hl.
      apply cmp_gt_lt in Hxz. congruence.
Qed.

#[global] Instance cmp_le_total : Total (cmp_le (A:=A)).
Proof.
  unfold cmp_le. intros x y. rewrite (cmp_opp x y).
  destruct (cmp x y); simpl; auto.
Qed.

#[global] Instance cmp_le_antisym : AntiSymm (=) (cmp_le (A:=A)).
Proof.
  unfold cmp_le. intros x y. rewrite (cmp_opp x y). intros H1 H2.
  apply cmp_eq. destruct (cmp x y); simpl in *; congruence.
Qed.

#[global] Instance cmp_lt_trans' : Transitive (cmp_lt (A:=A)).
Proof. intros x y z. apply cmp_lt_trans. Qed.

#[global] Instance cmp_lt_irrefl : Irreflexive (cmp_lt (A:=A)).
Proof. intros x. unfold complement, cmp_lt. by rewrite cmp_refl. Qed.

Lemma cmp_le_neq_lt x y : cmp_le x y → x ≠ y → cmp_lt x y.
Proof.
  unfold cmp_le, cmp_lt. intros Hle Hne. destruct (cmp x y) eqn:E; [|done..].
  by apply cmp_eq in E.
Qed.

End comparison.

#[global] Instance Z_comparison : Comparison Z.
Proof.
  split; unfold cmp, Z_compare.
  - apply Z.compare_eq_iff.
  - intros x y. by rewrite Z.compare_antisym.
  - intros x y z. rewrite !Z.compare_lt_iff. lia.
Qed.

#[global] Instance ascii_comparison : Comparison ascii.
Proof.
  split; unfold cmp, ascii_compare, Ascii.compare.
  - intros x y. rewrite N.compare_eq_iff. split; [|by intros ->].
    intros E. by rewrite <-(ascii_N_embedding x), <-(ascii_N_embedding y), E.
  - intros x y. by rewrite N.compare_antisym.
  - intros x y z. rewrite !N.compare_lt_iff. lia.
Qed.

Lemma cmp_pair `{Compare A, Compare B} (p q : A * B) :
  cmp p q = lex (cmp p.1 q.1) (cmp p.2 q.2).
Proof. done. Qed.

#[global] Instance pair_comparison `{Comparison A, Comparison B} : Comparison (A * B).
Proof.
  split; setoid_rewrite cmp_pair; unfold lex.
  - intros [a b] [a' b']; simpl. destruct (cmp a a') eqn:E.
    + apply cmp_eq in E as ->. rewrite cmp_eq. naive_solver.
    + split; [done|]. intros [= -> _]. by rewrite cmp_refl in E.
    + split; [done|]. intros [= -> _]. by rewrite cmp_refl in E.
  - intros [a b] [a' b']; simpl. rewrite (cmp_opp a a'), (cmp_opp b b').
    by destruct (cmp a a').
  - intros [a b] [a' b'] [a'' b'']; simpl.
    destruct (cmp a a') eqn:E1; [| |done].
    + apply cmp_eq in E1 as ->. destruct (cmp a' a''); [|done..].
      apply cmp_lt_trans.
    + destruct (cmp a' a'') eqn:E2; [| |done].
      * apply cmp_eq in E2 as ->. by rewrite E1.
      * by rewrite (cmp_lt_trans _ _ _ E1 E2).
Qed.

#[global] Instance string_comparison : Comparison string.
Proof.
  split; unfold cmp, string_compare.
  - intros x y. split; [apply String.compare_eq_iff|intros ->].
    induction y as [|c y IH]; simpl; [done|].
    change (Ascii.compare c c) with (cmp c c). by rewrite cmp_refl.
  - intros x y. apply String.compare_antisym.
  - induction x as [|a x IH]; intros [|b y] [|c z]; simpl; try done.
    change (Ascii.compare ?u ?v) with (cmp u v).
    destruct (cmp a b) eqn:E1; [| |done].
    + apply cmp_eq in E1 as ->.
      destruct (cmp b c); [|done..]. apply IH.
    + destruct (cmp b c) eqn:E2; [| |done].
      * apply cmp_eq in E2 as ->. by rewrite E1.
      * by rewrite (cmp_lt_trans _ _ _ E1 E2).
Qed.

(** The orders of the model are those of [cmp]. *)
Lemma str_le_cmp a b : str_le a b ↔ cmp_le a b.
Proof.
  unfold str_le, cmp_le, cmp, string_compare, String.leb.
  by destruct (String.compare a b).
Qed.

Lemma str_lt_cmp a b : str_lt a b ↔ cmp_lt a b.
Proof.
  unfold str_lt, cmp_lt, cmp, string_compare, String.ltb.
  by destruct (String.compare a b).
Qed.

Lemma tuple_compare_cmp k1 k2 : tuple_compare k1 k2 = cmp k1 k2.
Proof.
  destruct k1 as [[n1 a1] b1], k2 as [[n2 a2] b2].
  rewrite !cmp_pair. simpl.
  unfold lex, cmp, Z_compare, string_compare.
  destruct (n1 ?= n2)%Z; [|done..]. by destruct (String.compare a1 a2).
Qed.

Lemma tuple_le_cmp k1 k2 : tuple_le k1 k2 ↔ cmp_le k1 k2.
Proof.
  unfold tuple_le, tuple_leb, cmp_le. rewrite tuple_compare_cmp.
  by destruct (cmp k1 k2).
Qed.

#[global] Instance str_le_trans : Transitive str_le.
Proof. intros a b c. rewrite !str_le_cmp. apply transitivity. Qed.
#[global] Instance str_le_total : Total str_le.
Proof. intros a b. rewrite !str_le_cmp. apply total, _. Qed.
#[global] Instance str_lt_trans : Transitive str_lt.
Proof. intros a b c. rewrite !str_lt_cmp. apply transitivity. Qed.
#[global] Instance str_lt_irrefl : Irreflexive str_lt.
Proof. intros a. unfold complement. rewrite str_lt_cmp. apply cmp_lt_irrefl. Qed.

(** ** Pairs of a sorted list of distinct codes *)

Section pairs.

Lemma bind_seq_S {B} (f : nat → list B) a m :
  seq (S a) m ≫= f = seq a m ≫= (f ∘ S).
Proof.
  by rewrite <-fmap_S_seq, list_fmap_bind.
Qed.

Lemma bind_seq_lookup {B} (g : string → B) (u : list string) :
  seq 0 (length u) ≫= (λ j, [g (u !!! j)]) = g <$> u.
Proof.
  induction u as [|x u IH]; [done|].
  simpl length. simpl seq. rewrite bind_cons, bind_seq_S, fmap_cons.
  simpl. f_equal. apply IH.
Qed.

Lemma pairs_by_index (u : list string) :
  (i ← range 0 (length u); j ← range (i + 1) (length u);
   [((u !!! i, u !!! j), 1%Z)])
  = (λ p, (p, 1%Z)) <$> pairs_of u.
Proof.
  induction u as [|x u IH]; [done|].
  unfold range in *. rewrite Nat.sub_0_r in *. simpl length.
  change (seq 0 (S (length u))) with (0 :: seq 1 (length u)).
  rewrite bind_cons. simpl pairs_of. rewrite fmap_app. f_equal.
  - change (S (length u) - (0 + 1)) with (length u - 0).
    rewrite Nat.sub_0_r. change (0 + 1) with 1.
    rewrite bind_seq_S, <-list_fmap_compose.
    apply (bind_seq_lookup (λ y, ((x, y), 1%Z)) u).
  - rewrite bind_seq_S, <-IH. apply list_bind_ext; [|done].
    intros i. unfold compose.
    replace (S i + 1) with (S (i + 1)) by lia.
    change (S (length u) - S (i + 1)) with (length u - (i + 1)).
    by rewrite bind_seq_S.
Qed.

Lemma strict_of_sorted (l : list string) :
  StronglySorted str_le l → NoDup l → StronglySorted str_lt l.
Proof.
  induction 1 as [|x l Hl IH Hx]; intros Hnd; [constructor|].
  apply NoDup_cons in Hnd as [Hxl Hnd]. constructor; [by apply IH|].
  apply Forall_forall. intros y Hy. rewrite Forall_forall in Hx.
  apply str_lt_cmp, cmp_le_neq_lt.
  - apply str_le_cmp. by apply Hx.
  - by intros ->.
Qed.

Lemma elem_of_sorted_set x l : x ∈ sorted (set l) ↔ x ∈ l.
Proof.
  unfold sorted, set. by rewrite merge_sort_Permutation, elem_of_remove_dups.
Qed.

Lemma NoDup_sorted_set l : NoDup (sorted (set l)).
Proof.
  unfold sorted, set. rewrite merge_sort_Permutation. apply NoDup_remove_dups.
Qed.

Lemma sorted_set_strict l : StronglySorted str_lt (sorted (set l)).
Proof.
  apply strict_of_sorted; [|apply NoDup_sorted_set].
  apply StronglySorted_merge_sort; apply _.
Qed.

Lemma elem_of_pairs_of_1 {A} (u : list A) a b :
  (a, b) ∈ pairs_of u → a ∈ u ∧ b ∈ u.
Proof.
  induction u as [|x u IH]; simpl; [by intros ?%elem_of_nil|].
  rewrite elem_of_app, list_elem_of_fmap, !elem_of_cons.
  intros [(y & [= -> ->] & Hy) | H]; [by auto|].
  destruct (IH H). auto.
Qed.

Lemma elem_of_pairs_of (u : list string) a b :
  StronglySorted str_lt u →
  (a, b) ∈ pairs_of u ↔ a ∈ u ∧ b ∈ u ∧ str_lt a b.
Proof.
  induction 1 as [|x u Hu IH Hx]; simpl.
  { split; [by intros ?%elem_of_nil|by intros [?%elem_of_nil _]]. }
  rewrite Forall_forall in Hx.
  rewrite elem_of_app, list_elem_of_fmap, IH, !elem_of_cons. split.
  - intros [(y & [= -> ->] & Hy) | (Ha & Hb & Hab)]; auto.
  - intros ([-> | Ha] & [-> | Hb] & Hab).
    + by destruct (str_lt_irrefl x).
    + left. eauto.
    + destruct (str_lt_irrefl a). trans x; auto.
    + right. auto.
Qed.

Lemma NoDup_pairs_of {A} (u : list A) : NoDup u → NoDup (pairs_of u).
Proof.
  induction 1 as [|x u Hx Hu IH]; simpl; [constructor|].
  apply NoDup_app. split_and!; [|  |done].
  - apply NoDup_fmap_2; [|done]. by intros y z [=].
  - intros [a b] (y & [= -> ->] & Hy)%list_elem_of_fmap Hin.
    apply elem_of_pairs_of_1 in Hin as [Hin _]. done.
Qed.

(** [generate_pairs] emits one increment for each pair of distinct codes
    of the group, the smaller code first. *)
Lemma generate_pairs_eq airlines :
  generate_pairs airlines = (λ p, (p, 1%Z)) <$> pairs_of (sorted (set airlines)).
Proof. unfold generate_pairs. apply pairs_by_index. Qed.

Lemma elem_of_generate_pairs airlines a b n :
  ((a, b), n) ∈ generate_pairs airlines ↔
  n = 1%Z ∧ a ∈ airlines ∧ b ∈ airlines ∧ str_lt a b.
Proof.
  rewrite generate_pairs_eq, list_elem_of_fmap. split.
  - intros ([a' b'] & [= -> -> ->] & Hin).
    apply elem_of_pairs_of in Hin; [|apply sorted_set_strict].
    by rewrite !elem_of_sorted_set in Hin.
  - intros (-> & Ha & Hb & Hab). exists (a, b). split; [done|].
    apply elem_of_pairs_of; [apply sorted_set_strict|].
    by rewrite !elem_of_sorted_set.
Qed.

End pairs.

(** ** Facts about the RDD operations *)

Section rdd_facts.
Context {K : Type} `{EqDecision K} {V : Type}.
Implicit Types (k : K) (v : V) (rdd : list (K * V)).

Lemma values_app k rdd1 rdd2 :
  RDD.values k (rdd1 ++ rdd2) = RDD.values k rdd1 ++ RDD.values k rdd2.
Proof. unfold RDD.values. by rewrite filter_app, fmap_app. Qed.

Lemma elem_of_values v k rdd : v ∈ RDD.values k rdd ↔ (k, v) ∈ rdd.
Proof.
  unfold RDD.values. rewrite list_elem_of_fmap. split.
  - intros ([k' v'] & -> & [<- Hin]%list_elem_of_filter). done.
  - intros Hin. exists (k, v). split; [done|]. by apply list_elem_of_filter.
Qed.

Lemma values_nil k rdd : k ∉ rdd.*1 → RDD.values k rdd = [].
Proof.
  intros Hk. destruct (RDD.values k rdd) as [|v vs] eqn:E; [done|].
  destruct Hk. apply list_elem_of_fmap. exists (k, v). split; [done|].
  apply elem_of_values. rewrite E. left.
Qed.

Lemma values_cons_elem k rdd : k ∈ rdd.*1 → RDD.values k rdd ≠ [].
Proof.
  intros ([k' v] & -> & Hin)%list_elem_of_fmap E. simpl in E.
  apply elem_of_values in Hin. rewrite E in Hin. by apply elem_of_nil in Hin.
Qed.

Lemma values_singleton k v rdd :
  NoDup rdd.*1 → (k, v) ∈ rdd → RDD.values k rdd = [v].
Proof.
  induction rdd as [|[k' v'] rdd IH]; simpl; [by intros _ ?%elem_of_nil|].
  intros [Hk' Hnd]%NoDup_cons Hin. unfold RDD.values in *.
  rewrite filter_cons. simpl. apply elem_of_cons in Hin as [[= <- <-] | Hin].
  - rewrite decide_True by done. simpl. f_equal. by apply (values_nil k).
  - rewrite decide_False; [by apply IH|].
    intros ->. apply Hk', list_elem_of_fmap. by exists (k, v).
Qed.

Lemma values_bind {A} k (f : A → list (K * V)) (l : list A) :
  RDD.values k (l ≫= f) = l ≫= (λ x, RDD.values k (f x)).
Proof.
  induction l as [|x l IH]; [done|].
  by rewrite !bind_cons, values_app, IH.
Qed.

Lemma elem_of_keys k rdd : k ∈ RDD.keys rdd ↔ k ∈ rdd.*1.
Proof. apply elem_of_remove_dups. Qed.

Lemma NoDup_keys rdd : NoDup (RDD.keys rdd).
Proof. apply NoDup_remove_dups. Qed.

Lemma keys_reduceByKey f rdd : (RDD.reduceByKey f rdd).*1 = RDD.keys rdd.
Proof.
  unfold RDD.reduceByKey.
  assert (∀ k, k ∈ RDD.keys rdd → RDD.values k rdd ≠ []) as Hne.
  { intros k Hk. by apply values_cons_elem, elem_of_keys. }
  induction (RDD.keys rdd) as [|k ks IH]; [done|].
  simpl. destruct (RDD.values k rdd) as [|v vs] eqn:E.
  - destruct (Hne k); [left|done].
  - simpl. f_equal. apply IH. intros k' Hk'. apply Hne. by right.
Qed.

Lemma NoDup_reduceByKey f rdd : NoDup (RDD.reduceByKey f rdd).*1.
Proof. rewrite keys_reduceByKey. apply NoDup_keys. Qed.

Lemma elem_of_reduceByKey f rdd k v :
  (k, v) ∈ RDD.reduceByKey f rdd ↔ RDD.reduce f (RDD.values k rdd) = Some v.
Proof.
  unfold RDD.reduceByKey. rewrite list_elem_of_omap. split.
  - intros (k' & _ & Hk'). destruct (RDD.reduce f _) eqn:E; by simplify_eq/=.
  - intros Hv. exists k. rewrite Hv. split; [|done].
    apply elem_of_keys, dec_stable. intros Hk.
    by rewrite (values_nil _ _ Hk) in Hv.
Qed.

End rdd_facts.

Lemma reduce_add v vs : RDD.reduce Z.add (v :: vs) = Some (sumZ (v :: vs)).
Proof.
  simpl. f_equal. revert v. induction vs as [|w vs IH]; intros v; simpl.
  - lia.
  - rewrite IH. simpl. lia.
Qed.

Lemma reduce_add_replicate n :
  RDD.reduce Z.add (replicate n 1%Z) = if n is 0 then None else Some (Z.of_nat n).
Proof.
  destruct n as [|n]; [done|]. change (replicate (S n) 1%Z) with (1%Z :: replicate n 1%Z).
  rewrite reduce_add. f_equal. induction n as [|n IH]; [done|].
  change (replicate (S n) 1%Z) with (1%Z :: replicate n 1%Z).
  simpl in *. lia.
Qed.

Lemma bind_indicator {A B} (P : A → Prop) `{∀ x, Decision (P x)} (c : B) (l : list A) :
  l ≫= (λ x, if decide (P x) then [c] else []) = replicate (length (filter P l)) c.
Proof.
  induction l as [|x l IH]; [done|].
  rewrite bind_cons, filter_cons, IH. by destruct (decide (P x)).
Qed.

Lemma mapM_result_Ok {A B} (f : A → result B) (g : A → B) (l : list A) :
  Forall (λ x, f x = Ok (g x)) l → mapM f l = Ok (g <$> l).
Proof.
  induction 1 as [|x l Hx _ IH]; [done|].
  simpl. rewrite Hx. simpl. by rewrite IH.
Qed.

Lemma mapM_result_fmap_Ok {A B C} (f : B → result C) (g : A → B) (h : A → C) l :
  Forall (λ x, f (g x) = Ok (h x)) l → mapM f (g <$> l) = Ok (h <$> l).
Proof.
  induction 1 as [|x l Hx _ IH]; [done|].
  rewrite !fmap_cons.
  change (mapM f (g x :: (g <$> l)))
    with (y ← f (g x); k ← mapM f (g <$> l); mret (y :: k)).
  by rewrite Hx, IH.
Qed.

Lemma mapM_result_Raise {A B} (f : A → result B) e (l : list A) :
  Forall (λ x, (∃ y, f x = Ok y) ∨ f x = Raise e) l →
  Exists (λ x, f x = Raise e) l → mapM f l = Raise e.
Proof.
  induction 1 as [|x l Hx _ IH]; intros Hex; [by apply Exists_nil in Hex|].
  simpl. destruct Hx as [[y Hy] | Hx]; [|by rewrite Hx].
  apply Exists_cons in Hex as [Hex | Hex]; [congruence|].
  rewrite Hy. simpl. by rewrite IH.
Qed.

(** ** The aggregation *)

Section aggregation.
Implicit Types (recs : list ((string * string) * string)) (a b : string).

Lemma fst_tagged {A B} (c : B) (l : list A) : ((λ p, (p, c)) <$> l).*1 = l.
Proof. induction l as [|x l IH]; [done|]. csimpl. by rewrite IH. Qed.

Lemma values_generate_pairs a b airlines :
  RDD.values (a, b) (generate_pairs airlines) =
  if decide (a ∈ airlines ∧ b ∈ airlines ∧ str_lt a b) then [1%Z] else [].
Proof.
  case_decide as Hp.
  - apply values_singleton.
    + rewrite generate_pairs_eq, fst_tagged.
      apply NoDup_pairs_of, NoDup_sorted_set.
    + apply elem_of_generate_pairs. tauto.
  - apply values_nil. intros ([[a' b'] n] & [= <- <-] & Hin)%list_elem_of_fmap.
    apply elem_of_generate_pairs in Hin. tauto.
Qed.

Lemma values_increments recs a b :
  RDD.values (a, b)
    (RDD.flatMap (λ x, generate_pairs x.2)
       (RDD.mapValues id (RDD.groupByKey recs)))
  = replicate (if decide (str_lt a b) then co_occurrence_count recs a b else 0) 1%Z.
Proof.
  unfold RDD.flatMap, RDD.mapValues, RDD.groupByKey.
  rewrite values_bind, !list_fmap_bind.
  erewrite list_bind_ext; [|intros k; apply values_generate_pairs|done].
  simpl. rewrite (bind_indicator
    (λ k, a ∈ RDD.values k recs ∧ b ∈ RDD.values k recs ∧ str_lt a b)).
  f_equal. unfold co_occurrence_count, groups, RDD.keys. case_decide as Hab.
  - f_equal. apply list_filter_iff. intros g.
    rewrite !elem_of_values. tauto.
  - induction (remove_dups recs.*1) as [|g gs IH]; [done|].
    rewrite filter_cons, decide_False by tauto. done.
Qed.

(** What [aggregate] holds: a pair, smaller code first, with the number of
    groups that contain both codes, for every pair that co-occurs at all. *)
Lemma elem_of_aggregate recs a b n :
  ((a, b), n) ∈ aggregate recs ↔
  str_lt a b ∧ n = Z.of_nat (co_occurrence_count recs a b) ∧ (0 < n)%Z.
Proof.
  unfold aggregate. rewrite elem_of_reduceByKey, values_increments.
  rewrite reduce_add_replicate. case_decide as Hab.
  - destruct (co_occurrence_count recs a b) as [|c]; split.
    + done.
    + intros (_ & -> & ?). lia.
    + intros [= <-]. split_and!; [done..|lia].
    + by intros (_ & -> & _).
  - split; [done|]. by intros [? _].
Qed.

Lemma NoDup_aggregate_keys recs : NoDup (aggregate recs).*1.
Proof. apply NoDup_reduceByKey. Qed.

Lemma NoDup_aggregate recs : NoDup (aggregate recs).
Proof. eapply NoDup_fmap_1, NoDup_aggregate_keys. Qed.

Lemma groups_perm recs recs' : recs ≡ₚ recs' → groups recs ≡ₚ groups recs'.
Proof.
  intros Hp. unfold groups. apply NoDup_Permutation; [apply NoDup_remove_dups..|].
  intros g. by rewrite !elem_of_remove_dups, Hp.
Qed.

Lemma co_occurrence_count_perm recs recs' a b :
  recs ≡ₚ recs' → co_occurrence_count recs a b = co_occurrence_count recs' a b.
Proof.
  intros Hp. unfold co_occurrence_count.
  rewrite (groups_perm _ _ Hp). f_equal. apply list_filter_iff.
  intros g. by rewrite Hp.
Qed.

Lemma aggregate_perm recs recs' : recs ≡ₚ recs' → aggregate recs ≡ₚ aggregate recs'.
Proof.
  intros Hp. apply NoDup_Permutation; [apply NoDup_aggregate..|].
  intros [[a b] n]. by rewrite !elem_of_aggregate, (co_occurrence_count_perm _ _ _ _ Hp).
Qed.

End aggregation.

(** ** Parsing the lines *)

Section parsing.

Lemma key_by_date_origin_Ok line :
  has_three_fields line →
  key_by_date_origin (split ","%char line) = Ok (record_of line).
Proof.
  unfold has_three_fields, record_of.
  destruct (split ","%char line) as [|x0 [|x1 [|x2 rest]]]; simpl; try lia. done.
Qed.

Lemma key_by_date_origin_Raise line :
  ¬ has_three_fields line →
  key_by_date_origin (split ","%char line) = Raise IndexError.
Proof.
  unfold has_three_fields.
  destruct (split ","%char line) as [|x0 [|x1 [|x2 rest]]]; simpl; try done.
  intros []. lia.
Qed.

#[global] Instance has_three_fields_dec line : Decision (has_three_fields line).
Proof. unfold has_three_fields. apply _. Defined.

Lemma parsed_all lines :
  RDD.map (λ line, Ok (split ","%char line)) lines = Ok (split ","%char <$> lines).
Proof. apply mapM_result_Ok, Forall_forall. done. Qed.

Lemma date_origin_airline_of_Ok lines :
  Forall has_three_fields lines →
  date_origin_airline_of lines = Ok (record_of <$> lines).
Proof.
  intros Hall. unfold date_origin_airline_of. rewrite parsed_all. simpl.
  apply mapM_result_fmap_Ok. eapply Forall_impl; [done|].
  intros line Hl. by apply key_by_date_origin_Ok.
Qed.

Lemma date_origin_airline_of_Raise lines :
  Exists (λ line, ¬ has_three_fields line) lines →
  date_origin_airline_of lines = Raise IndexError.
Proof.
  intros Hex. unfold date_origin_airline_of. rewrite parsed_all. simpl.
  apply mapM_result_Raise.
  - apply Forall_fmap, Forall_forall. intros line _. simpl.
    destruct (decide (has_three_fields line)) as [Hl|Hl].
    + left. eexists. by apply key_by_date_origin_Ok.
    + right. by apply key_by_date_origin_Raise.
  - apply Exists_fmap. eapply Exists_impl; [done|].
    intros line Hl. by apply key_by_date_origin_Raise.
Qed.

Lemma date_origin_airline_of_inv lines recs :
  date_origin_airline_of lines = Ok recs →
  Forall has_three_fields lines ∧ recs = record_of <$> lines.
Proof.
  intros Hok. destruct (decide (Forall has_three_fields lines)) as [Hall|Hex].
  - split; [done|]. rewrite date_origin_airline_of_Ok in Hok by done. congruence.
  - apply not_Forall_Exists in Hex; [|apply _].
    rewrite date_origin_airline_of_Raise in Hok by done. done.
Qed.

Lemma co_occurring_inv lines out :
  co_occurring_airline_pairs_by_origin lines = Ok out →
  Forall has_three_fields lines ∧
  out = RDD.sortBy sort_key (aggregate (record_of <$> lines)).
Proof.
  unfold co_occurring_airline_pairs_by_origin. intros Hok.
  destruct (date_origin_airline_of lines) as [recs|e] eqn:E; [|done].
  apply date_origin_airline_of_inv in E as [Hall ->]. simpl in Hok.
  split; [done|congruence].
Qed.

Lemma co_occurring_Ok lines :
  Forall has_three_fields lines →
  co_occurring_airline_pairs_by_origin lines
  = Ok (RDD.sortBy sort_key (aggregate (record_of <$> lines))).
Proof.
  intros Hall. unfold co_occurring_airline_pairs_by_origin.
  by rewrite date_origin_airline_of_Ok.
Qed.

Lemma split_comma_free s : comma_free s → split ","%char s = [s].
Proof.
  induction s as [|c s IH]; [done|]. intros [Hc Hs]. simpl.
  rewrite (proj2 (Ascii.eqb_neq _ _) Hc). by rewrite IH.
Qed.

Lemma split_field s rest :
  comma_free s → split ","%char (s +:+ "," +:+ rest) = s :: split ","%char rest.
Proof.
  induction s as [|c s IH]; [done|]. intros [Hc Hs]. simpl.
  rewrite (proj2 (Ascii.eqb_neq _ _) Hc). change (String.append s ?x) with (s +:+ x).
  by rewrite IH.
Qed.

Lemma split_line_of date airline origin :
  comma_free date → comma_free airline → comma_free origin →
  split ","%char (line_of date airline origin) = [date; airline; origin].
Proof.
  intros Hd Ha Ho. unfold line_of.
  by rewrite !split_field, split_comma_free.
Qed.

(** A line [date,airline,origin] has three fields and is parsed to the
    record that groups the airline under (date, origin). *)
Lemma record_of_line_of date airline origin :
  comma_free date → comma_free airline → comma_free origin →
  has_three_fields (line_of date airline origin) ∧
  record_of (line_of date airline origin) = ((date, origin), airline).
Proof.
  intros Hd Ha Ho. unfold has_three_fields, record_of.
  rewrite split_line_of by done. split; [simpl; lia|done].
Qed.

Lemma sortBy_perm {A} (f : A → Z * string * string) (l : list A) :
  RDD.sortBy f l ≡ₚ l.
Proof. apply merge_sort_Permutation. Qed.

End parsing.

(** ** Ranking *)

Section ranking.

#[global] Instance sort_key_inj : Inj (=) (=) sort_key.
Proof.
  intros [[a b] n] [[a' b'] n']. unfold sort_key. simpl.
  intros [= Hn -> ->]. f_equal. lia.
Qed.

#[global] Instance key_le_trans : Transitive key_le.
Proof. intros x y z. unfold key_le. rewrite !tuple_le_cmp. apply transitivity. Qed.

#[global] Instance key_le_total : Total key_le.
Proof. intros x y. unfold key_le. rewrite !tuple_le_cmp. apply total, _. Qed.

#[global] Instance key_le_antisym : AntiSymm (=) key_le.
Proof.
  intros x y. unfold key_le. rewrite !tuple_le_cmp. intros Hxy Hyx.
  apply (inj sort_key). by apply (anti_symm cmp_le).
Qed.

Lemma key_le_ranked x y : key_le x y → x ≠ y → ranked_before x y.
Proof.
  destruct x as [[a b] n], y as [[a' b'] n'].
  unfold key_le, tuple_le, tuple_leb, tuple_compare, sort_key, ranked_before.
  simpl. intros Hle Hne.
  destruct (Z.compare_spec (- n) (- n')) as [Hn|Hn|Hn]; [|left; lia|done].
  right. split; [lia|]. assert (n = n') as <- by lia.
  destruct (String.compare a a') eqn:Ea; [| |done].
  - apply String.compare_eq_iff in Ea as <-. right. split; [done|].
    unfold str_lt, String.ltb.
    destruct (String.compare b b') eqn:Eb; [|done..].
    apply String.compare_eq_iff in Eb as <-. done.
  - left. unfold str_lt, String.ltb. by rewrite Ea.
Qed.

Lemma sortBy_sorted (l : list pair_count) :
  StronglySorted key_le (RDD.sortBy sort_key l).
Proof. apply (StronglySorted_merge_sort key_le). Qed.

Lemma sortBy_ranked (l : list pair_count) :
  NoDup l → StronglySorted ranked_before (RDD.sortBy sort_key l).
Proof.
  intros Hnd. rewrite <-(sortBy_perm sort_key l) in Hnd.
  induction (sortBy_sorted l) as [|x out Hout IH Hx]; [constructor|].
  apply NoDup_cons in Hnd as [Hxo Hnd]. constructor; [by apply IH|].
  apply Forall_forall. intros y Hy. rewrite Forall_forall in Hx.
  apply key_le_ranked; [by apply Hx|]. by intros ->.
Qed.

Lemma sortBy_perm_eq (l l' : list pair_count) :
  l ≡ₚ l' → RDD.sortBy sort_key l = RDD.sortBy sort_key l'.
Proof.
  intros Hp. apply (StronglySorted_unique key_le); [apply sortBy_sorted..|].
  by rewrite !sortBy_perm.
Qed.

End ranking.

(** ** Counts, orientation and order of the result *)

Section co_occurrence.
Implicit Types (lines : list string) (out : list pair_count) (a b : string).

Lemma co_occurrence_count_sym recs a b :
  co_occurrence_count recs a b = co_occurrence_count recs b a.
Proof.
  unfold co_occurrence_count. f_equal. apply list_filter_iff. intros g. tauto.
Qed.

Lemma str_lt_total a b : a ≠ b → str_lt a b ∨ str_lt b a.
Proof.
  intros Hne. destruct (total str_le a b) as [Hle|Hle].
  - left. apply str_lt_cmp, cmp_le_neq_lt; [by apply str_le_cmp|done].
  - right. apply str_lt_cmp, cmp_le_neq_lt; [by apply str_le_cmp|done].
Qed.

Lemma str_lt_asym a b : str_lt a b → str_lt b a → False.
Proof. intros H1 H2. apply (str_lt_irrefl a). by trans b. Qed.

Lemma generate_pairs_small airlines :
  length (set airlines) ≤ 1 → generate_pairs airlines = [].
Proof.
  intros Hlen. rewrite generate_pairs_eq.
  assert (length (sorted (set airlines)) ≤ 1) as Hs.
  { unfold sorted. by rewrite merge_sort_Permutation. }
  by destruct (sorted (set airlines)) as [|x [|y u]]; simpl in *; [..|lia].
Qed.

(** C1. For lines with (at least) the three fields, as every line
    [date,airline,origin] has, the count the result associates with an
    unordered pair of distinct airlines is the number of distinct
    (date, origin) groups in which both appear; a pair that never co-occurs
    is absent, each pair has one entry, and a group with at most one
    distinct airline contributes no pair. *)
Theorem co_occurrence_counts lines :
  Forall has_three_fields lines →
  ∃ out,
    co_occurring_airline_pairs_by_origin lines = Ok out ∧
    NoDup out.*1 ∧
    (∀ a b n, a ≠ b →
       ((a, b), n) ∈ out ∨ ((b, a), n) ∈ out ↔
       n = Z.of_nat (co_occurrence_count (record_of <$> lines) a b) ∧ (0 < n)%Z) ∧
    (∀ airlines, length (set airlines) ≤ 1 → generate_pairs airlines = []) ∧
    (∀ date airline origin,
       comma_free date → comma_free airline → comma_free origin →
       has_three_fields (line_of date airline origin) ∧
       record_of (line_of date airline origin) = ((date, origin), airline)).
Proof.
  intros Hall. eexists. split; [by apply co_occurring_Ok|].
  split_and!; [| | |apply record_of_line_of].
  - rewrite sortBy_perm. apply NoDup_aggregate_keys.
  - intros a b n Hne. rewrite !sortBy_perm, !elem_of_aggregate.
    rewrite (co_occurrence_count_sym _ b a). split.
    + intros [(_ & ? & ?) | (_ & ? & ?)]; done.
    + intros [? ?]. destruct (str_lt_total a b Hne); auto.
  - apply generate_pairs_small.
Qed.

Lemma output_keys_ascending lines out a b n :
  co_occurring_airline_pairs_by_origin lines = Ok out →
  ((a, b), n) ∈ out → str_lt a b.
Proof.
  intros [_ ->]%co_occurring_inv. rewrite sortBy_perm, elem_of_aggregate. tauto.
Qed.

(** C3. Every pair key the aggregator emits, and every key of the result,
    has its first code strictly below its second, and the result never
    holds a key together with its mirror image. *)
Theorem pair_keys_canonical lines out :
  co_occurring_airline_pairs_by_origin lines = Ok out →
  (∀ airlines a b n, ((a, b), n) ∈ generate_pairs airlines → str_lt a b) ∧
  (∀ a b n, ((a, b), n) ∈ out → str_lt a b ∧ ∀ m, ((b, a), m) ∉ out).
Proof.
  intros [Hall ->]%co_occurring_inv. split.
  - intros airlines a b n Hin. apply elem_of_generate_pairs in Hin. tauto.
  - intros a b n Hin.
    pose proof (output_keys_ascending lines _ a b n (co_occurring_Ok _ Hall) Hin).
    split; [done|]. intros m Hin'. apply (str_lt_asym a b); [done|].
    apply (output_keys_ascending lines _ b a m (co_occurring_Ok _ Hall) Hin').
Qed.

(** C2. The result is in rank order (count descending, then first code,
    then second code ascending), an order that ranks any two different
    entries one before the other; and the result is the same sequence
    however the input lines are ordered. *)
Theorem output_ranked_deterministic lines out :
  co_occurring_airline_pairs_by_origin lines = Ok out →
  StronglySorted ranked_before out ∧
  (∀ x y : pair_count, x ≠ y → ranked_before x y ∨ ranked_before y x) ∧
  (∀ lines', lines' ≡ₚ lines →
     co_occurring_airline_pairs_by_origin lines' = Ok out).
Proof.
  intros [Hall ->]%co_occurring_inv. split_and!.
  - apply sortBy_ranked, NoDup_aggregate.
  - intros x y Hne. destruct (total key_le x y); [left|right];
      by apply key_le_ranked.
  - intros lines' Hp. rewrite co_occurring_Ok by by rewrite Hp.
    f_equal. apply sortBy_perm_eq, aggregate_perm. by rewrite Hp.
Qed.

End co_occurrence.

(** ** Shards *)

Section shards.
Implicit Types (recs : list ((string * string) * string)) (out : list pair_count).

Lemma filter_ext_elem {A} (P Q : A → Prop) `{∀ x, Decision (P x), ∀ x, Decision (Q x)}
    (l : list A) :
  (∀ x, x ∈ l → P x ↔ Q x) → filter P l = filter Q l.
Proof.
  induction l as [|x l IH]; intros Hpq; [done|].
  rewrite !filter_cons, IH by (intros y Hy; apply Hpq; by right).
  destruct (decide (P x)) as [Hp|Hp], (decide (Q x)) as [Hq|Hq]; try done.
  - destruct Hq. apply Hpq; [left|done].
  - destruct Hp. apply Hpq; [left|done].
Qed.

Lemma values_of_aggregated recs out a b :
  out ≡ₚ aggregate recs →
  RDD.values (a, b) out =
  if decide (str_lt a b ∧ 0 < co_occurrence_count recs a b)
  then [Z.of_nat (co_occurrence_count recs a b)] else [].
Proof.
  intros Hp. case_decide as Hc.
  - apply values_singleton.
    + rewrite Hp. apply NoDup_aggregate_keys.
    + rewrite Hp. apply elem_of_aggregate. split_and!; [tauto|done|lia].
  - apply values_nil. intros ([[a' b'] n] & [= <- <-] & Hin)%list_elem_of_fmap.
    rewrite Hp in Hin. apply elem_of_aggregate in Hin as (? & -> & ?).
    apply Hc. split; [done|lia].
Qed.

Lemma groups_app recs1 recs2 :
  groups_apart recs1 recs2 →
  groups (recs1 ++ recs2) ≡ₚ groups recs1 ++ groups recs2.
Proof.
  intros Hd. unfold groups. apply NoDup_Permutation.
  - apply NoDup_remove_dups.
  - apply NoDup_app. split_and!; [apply NoDup_remove_dups| |apply NoDup_remove_dups].
    intros g. rewrite !elem_of_remove_dups. apply Hd.
  - intros g. rewrite elem_of_app, !elem_of_remove_dups, fmap_app, elem_of_app. done.
Qed.

Lemma co_occurrence_count_app recs1 recs2 a b :
  groups_apart recs1 recs2 →
  co_occurrence_count (recs1 ++ recs2) a b
  = co_occurrence_count recs1 a b + co_occurrence_count recs2 a b.
Proof.
  intros Hd. unfold co_occurrence_count.
  rewrite (groups_app _ _ Hd), filter_app, length_app.
  assert (∀ g c, (g, c) ∈ recs1 → g ∈ recs1.*1) as Hk1.
  { intros g c Hin. apply list_elem_of_fmap. by exists (g, c). }
  assert (∀ g c, (g, c) ∈ recs2 → g ∈ recs2.*1) as Hk2.
  { intros g c Hin. apply list_elem_of_fmap. by exists (g, c). }
  f_equal; f_equal; apply filter_ext_elem; intros g Hg;
    unfold groups in Hg; rewrite elem_of_remove_dups in Hg; rewrite !elem_of_app.
  - split; [|tauto]. intros [[?|?] [?|?]]; [tauto|..];
      destruct (Hd g); eauto.
  - split; [|tauto]. intros [[?|?] [?|?]]; [..|tauto];
      destruct (Hd g); eauto.
Qed.

Lemma merged_values (P : Prop) `{!Decision P} (c1 c2 : nat) (n : Z) :
  RDD.reduce Z.add
    ((if decide (P ∧ 0 < c1) then [Z.of_nat c1] else []) ++
     (if decide (P ∧ 0 < c2) then [Z.of_nat c2] else [])) = Some n
  ↔ P ∧ n = Z.of_nat (c1 + c2) ∧ (0 < n)%Z.
Proof.
  destruct (decide P) as [HP|HP].
  - destruct c1 as [|c1], c2 as [|c2];
      repeat first [rewrite decide_True by (split; [done|lia])
                   |rewrite decide_False by (intros [_ ?]; lia)];
      simpl; (split; [intros [= <-]|intros (_ & -> & ?); f_equal]);
      try split_and!; try done; lia.
  - rewrite !decide_False by tauto. split; [done|tauto].
Qed.

Lemma merge_counts_aggregate recs1 recs2 out1 out2 :
  groups_apart recs1 recs2 →
  out1 ≡ₚ aggregate recs1 → out2 ≡ₚ aggregate recs2 →
  merge_counts out1 out2 ≡ₚ aggregate (recs1 ++ recs2).
Proof.
  intros Hd Hp1 Hp2. apply NoDup_Permutation.
  - eapply NoDup_fmap_1, NoDup_reduceByKey.
  - apply NoDup_aggregate.
  - intros [[a b] n]. unfold merge_counts.
    rewrite elem_of_reduceByKey, values_app.
    rewrite (values_of_aggregated _ _ _ _ Hp1), (values_of_aggregated _ _ _ _ Hp2).
    rewrite elem_of_aggregate, (co_occurrence_count_app _ _ _ _ Hd).
    apply merged_values.
Qed.

(** C4. When no (date, origin) group is split between the two shards,
    aggregating each shard and summing the counts of equal pair keys gives
    the same pair-to-count map as aggregating the whole input at once, and
    ranking the merged counts gives the same result sequence. *)
Theorem shard_merge_equals_whole (lines shard1 shard2 : list string) out1 out2 :
  lines ≡ₚ shard1 ++ shard2 →
  (∀ l1 l2, l1 ∈ shard1 → l2 ∈ shard2 → (record_of l1).1 ≠ (record_of l2).1) →
  co_occurring_airline_pairs_by_origin shard1 = Ok out1 →
  co_occurring_airline_pairs_by_origin shard2 = Ok out2 →
  ∃ out,
    co_occurring_airline_pairs_by_origin lines = Ok out ∧
    (list_to_map (merge_counts out1 out2) : gmap (string * string) Z)
      = list_to_map out ∧
    RDD.sortBy sort_key (merge_counts out1 out2) = out.
Proof.
  intros Hp Hapart [Hall1 ->]%co_occurring_inv [Hall2 ->]%co_occurring_inv.
  assert (merge_counts
            (RDD.sortBy sort_key (aggregate (record_of <$> shard1)))
            (RDD.sortBy sort_key (aggregate (record_of <$> shard2)))
          ≡ₚ aggregate (record_of <$> lines)) as Hm.
  { trans (aggregate (record_of <$> shard1 ++ shard2));
      [|apply aggregate_perm; by rewrite Hp].
    rewrite fmap_app. apply merge_counts_aggregate; [|apply sortBy_perm..].
    intros g ([g1 c1] & -> & (l1 & E1 & Hl1)%list_elem_of_fmap)%list_elem_of_fmap
             ([g2 c2] & E & (l2 & E2 & Hl2)%list_elem_of_fmap)%list_elem_of_fmap.
    apply (Hapart l1 l2 Hl1 Hl2). rewrite <-E1, <-E2. done. }
  eexists. split; [|split].
  - apply co_occurring_Ok. rewrite Hp. by apply Forall_app.
  - apply list_to_map_proper; [apply NoDup_reduceByKey|].
    by rewrite Hm, sortBy_perm.
  - by apply sortBy_perm_eq.
Qed.

End shards.

(** ** The top-10 document *)

Section top10.
Implicit Types (r : list pair_count) (d : gmap string p1_entry).

Lemma p1_loop_Raise (top10 : list pair_count) e (indices : list nat) :
  foldl (p1_item top10) (Raise e) indices = Raise e.
Proof. induction indices as [|i indices IH]; [done|]. apply IH. Qed.

Lemma p1_loop (top10 : list pair_count) (indices : list nat) d :
  foldl (p1_item top10) (Ok d) indices
  = if decide (Forall (λ i, i < length top10) indices)
    then Ok (p1_dict top10 indices d) else Raise IndexError.
Proof.
  revert d. induction indices as [|i indices IH]; intros d; [done|].
  change (foldl (p1_item top10) (Ok d) (i :: indices))
    with (foldl (p1_item top10) (p1_item top10 (Ok d) i) indices).
  unfold p1_item at 2, getitem. destruct (top10 !! i) as [e|] eqn:E; simpl.
  - rewrite IH. rewrite (list_lookup_total_correct _ _ _ E).
    apply lookup_lt_Some in E.
    destruct (decide (Forall _ indices)) as [Hall|Hall].
    + by rewrite decide_True by by constructor.
    + rewrite decide_False; [done|]. by intros [_ ?]%Forall_cons.
  - rewrite p1_loop_Raise. apply lookup_ge_None in E.
    rewrite decide_False; [done|]. intros [? _]%Forall_cons. lia.
Qed.

Lemma formatted_p1_eq r :
  formatted_p1 r =
  if decide (10 ≤ length r)
  then Ok (p1_dict (take 10 r) (seq 0 10) ∅) else Raise IndexError.
Proof.
  unfold formatted_p1, range. rewrite p1_loop.
  destruct (decide (10 ≤ length r)) as [Hr|Hr].
  - rewrite decide_True; [done|]. apply Forall_seq. intros j Hj.
    rewrite length_take. lia.
  - rewrite decide_False; [done|]. rewrite Forall_seq. intros Hall.
    specialize (Hall 9). rewrite length_take in Hall. lia.
Qed.

Lemma p1_dict_cons (top10 : list pair_count) i indices d :
  p1_dict top10 (i :: indices) d
  = p1_dict top10 indices (<[str (i + 1) := entry_of (top10 !!! i)]> d).
Proof. done. Qed.

Lemma p1_dict_lookup_other (top10 : list pair_count) indices d k :
  k ∉ (λ i, str (i + 1)) <$> indices →
  p1_dict top10 indices d !! k = d !! k.
Proof.
  revert d. induction indices as [|i indices IH]; intros d Hk; [done|].
  rewrite fmap_cons, not_elem_of_cons in Hk. destruct Hk as [Hki Hk].
  rewrite p1_dict_cons, IH by done. by rewrite lookup_insert_ne.
Qed.

Lemma str_succ_inj i j : str (i + 1) = str (j + 1) → i = j.
Proof. unfold str. intros E%(inj pretty). lia. Qed.

Lemma p1_dict_lookup (top10 : list pair_count) indices d j :
  NoDup indices → j ∈ indices →
  p1_dict top10 indices d !! str (j + 1) = Some (entry_of (top10 !!! j)).
Proof.
  revert d. induction indices as [|i indices IH]; intros d Hnd Hj.
  { by apply elem_of_nil in Hj. }
  apply NoDup_cons in Hnd as [Hi Hnd]. rewrite p1_dict_cons.
  destruct (decide (j ∈ indices)) as [Hin|Hin]; [by apply IH|].
  apply elem_of_cons in Hj as [-> | Hj]; [|done].
  rewrite p1_dict_lookup_other, lookup_insert_eq; [done|].
  intros (i' & E%str_succ_inj & Hi')%list_elem_of_fmap. by subst.
Qed.

Lemma p1_dict_dom (top10 : list pair_count) indices d :
  dom (p1_dict top10 indices d) =
  dom d ∪ list_to_set ((λ i, str (i + 1)) <$> indices).
Proof.
  revert d. induction indices as [|i indices IH]; intros d.
  - simpl. set_solver.
  - rewrite p1_dict_cons, IH, dom_insert_L. set_solver.
Qed.

(** C5. With fewer than ten pairs the formatting step raises, and so does
    [main]; with ten or more it returns a document. *)
Theorem formatted_p1_needs_ten_pairs (r : list pair_count) :
  (length r < 10 → formatted_p1 r = Raise IndexError) ∧
  (10 ≤ length r → ∃ d, formatted_p1 r = Ok d) ∧
  (∀ lines, co_occurring_airline_pairs_by_origin lines = Ok r →
     (length r < 10 → main_problem1 lines = Raise IndexError) ∧
     (10 ≤ length r → ∃ d, main_problem1 lines = Ok d)).
Proof.
  rewrite formatted_p1_eq. split_and!.
  - intros Hr. by rewrite decide_False by lia.
  - intros Hr. rewrite decide_True by done. eauto.
  - intros lines Hl. unfold main_problem1. rewrite Hl. simpl.
    rewrite formatted_p1_eq. split; intros Hr.
    + by rewrite decide_False by lia.
    + rewrite decide_True by done. eauto.
Qed.

(** C7. For a result list with at least ten entries the document has
    exactly the keys "1" to "10"; the value at rank [i + 1] holds the two
    codes of entry [i] as [flight_1] and [flight_2] and its count as
    [common_origin]; and when the list is the result of the aggregation the
    two codes are in ascending order. *)
Theorem result_document_shape (r : list pair_count) :
  10 ≤ length r →
  ∃ d, formatted_p1 r = Ok d ∧
    dom d = list_to_set ["1"; "2"; "3"; "4"; "5"; "6"; "7"; "8"; "9"; "10"] ∧
    (∀ i e, i < 10 → r !! i = Some e →
       d !! str (i + 1) =
         Some {| flight_1 := e.1.1; flight_2 := e.1.2; common_origin := e.2 |}) ∧
    (∀ lines, co_occurring_airline_pairs_by_origin lines = Ok r →
       ∀ k v, d !! k = Some v → str_lt (flight_1 v) (flight_2 v)).
Proof.
  intros Hr. eexists. rewrite formatted_p1_eq, decide_True by done.
  split; [done|].
  assert (∀ i e, i < 10 → r !! i = Some e →
    p1_dict (take 10 r) (seq 0 10) ∅ !! str (i + 1) = Some (entry_of e)) as Hlook.
  { intros i e Hi He. rewrite p1_dict_lookup.
    - f_equal. f_equal. apply list_lookup_total_correct.
      by rewrite lookup_take_lt.
    - apply NoDup_seq.
    - apply elem_of_seq. lia. }
  split_and!.
  - rewrite p1_dict_dom, dom_empty_L, (left_id_L ∅ (∪)). done.
  - done.
  - intros lines Hl k v Hv.
    assert (k ∈ dom (p1_dict (take 10 r) (seq 0 10) ∅)) as Hk by by apply elem_of_dom.
    rewrite p1_dict_dom, dom_empty_L, (left_id_L ∅ (∪)) in Hk.
    apply elem_of_list_to_set, list_elem_of_fmap in Hk as (i & -> & Hi).
    apply elem_of_seq in Hi.
    destruct (lookup_lt_is_Some_2 r i) as [[[a b] n] He]; [lia|].
    rewrite (Hlook i _ ltac:(lia) He) in Hv. injection Hv as <-. simpl.
    apply (output_keys_ascending lines r a b n Hl).
    eapply list_elem_of_lookup_2, He.
Qed.

End top10.

(** ** Rows that are not well formed *)

Section rows.

(** C6, as the code has it. A row with fewer than three comma-separated
    fields is not dropped: it makes the parsing stage raise [IndexError],
    which aborts the run. When every row has three fields no row is left
    out: each one, also one with an empty date, airline or origin, is turned
    into its record and takes part in the aggregation. *)
Theorem malformed_rows_abort_or_count (lines : list string) :
  (Exists (λ line, ¬ has_three_fields line) lines →
     co_occurring_airline_pairs_by_origin lines = Raise IndexError) ∧
  (Forall has_three_fields lines →
     date_origin_airline_of lines = Ok (record_of <$> lines) ∧
     co_occurring_airline_pairs_by_origin lines
       = Ok (RDD.sortBy sort_key (aggregate (record_of <$> lines)))) ∧
  (∀ date airline origin,
     comma_free date → comma_free airline → comma_free origin →
     has_three_fields (line_of date airline origin) ∧
     record_of (line_of date airline origin) = ((date, origin), airline)).
Proof.
  split_and!.
  - intros Hex. unfold co_occurring_airline_pairs_by_origin.
    by rewrite date_origin_airline_of_Raise.
  - intros Hall. split; [by apply date_origin_airline_of_Ok|by apply co_occurring_Ok].
  - apply record_of_line_of.
Qed.

(** A two-field row aborts the run, and a row with an empty airline field
    is counted like any other. *)
Lemma malformed_rows_not_dropped :
  co_occurring_airline_pairs_by_origin ["2021-01-01,AA,LAX"; "2021-01-01,DL"]
    = Raise IndexError ∧
  co_occurring_airline_pairs_by_origin ["2021-01-01,,LAX"; "2021-01-01,AA,LAX"]
    = Ok [(("", "AA"), 1%Z)].
Proof. split; vm_compute; reflexivity. Qed.

End rows.

(** ** The sink *)

Section sink_facts.
Implicit Types (m : gmap string (list (list string))) (p k : string).

Lemma under_refl p : under p p.
Proof. by left. Qed.

Lemma lookup_cleared p m k :
  cleared p m !! k = if decide (under p k) then None else m !! k.
Proof.
  unfold cleared. rewrite map_lookup_filter.
  destruct (m !! k) as [x|]; simpl; [|by case_decide].
  case_decide as Hk.
  - case_guard as Hn; [by destruct Hn|done].
  - by case_guard.
Qed.

Lemma nothing_under p m :
  filter (λ kv, under p kv.1) m = ∅ ↔ ∀ k, under p k → m !! k = None.
Proof.
  rewrite map_empty_filter. unfold map_Forall. simpl. split.
  - intros Hm k Hk. destruct (m !! k) as [x|] eqn:E; [|done].
    by destruct (Hm k x E).
  - intros Hm k x E Hk. by rewrite (Hm k Hk) in E.
Qed.

Lemma cleared_id p m : filter (λ kv, under p kv.1) m = ∅ → cleared p m = m.
Proof.
  rewrite nothing_under. intros Hm. apply map_eq. intros k.
  rewrite lookup_cleared. case_decide; [by rewrite Hm|done].
Qed.

Lemma delete_gcs_path_run spark p w :
  run (delete_gcs_path spark p) w = (Ok (), after_delete spark p w).
Proof.
  unfold delete_gcs_path, after_delete, delete_target, delete_message, io_try.
  simpl. destruct (java_net_URI spark p) as [uri|e]; simpl; [|done].
  destruct (fs_Path spark uri) as [k|e]; simpl; [|done].
  case_bool_decide as Hex; simpl; [done|].
  rewrite cleared_id; [done|].
  destruct (decide (filter (λ kv, under k kv.1) (objects w) = ∅)); [done|].
  by destruct Hex.
Qed.

(** What [delete_gcs_path] leaves at a name. *)
Lemma lookup_after_delete spark p w x :
  objects (after_delete spark p w) !! x
  = match delete_target spark p with
    | Ok k => if decide (under k x) then None else objects w !! x
    | Raise _ => objects w !! x
    end.
Proof.
  unfold after_delete. destruct (delete_target spark p) as [k|e]; simpl; [|done].
  apply lookup_cleared.
Qed.

Lemma saveAsTextFile_run spark rdd p k w :
  hadoop_Path spark p = Ok k →
  (∀ x, under k x → objects w !! x = None) →
  run (saveAsTextFile spark rdd p) w
  = (Ok (), World (<[k := rdd]> (objects w)) (stdout w)).
Proof.
  intros Hk Hno%nothing_under. unfold saveAsTextFile, fs_exists. simpl.
  rewrite Hk. simpl. by rewrite bool_decide_false by by intros [].
Qed.

Lemma saveAsTextFile_exists spark rdd p k w x :
  hadoop_Path spark p = Ok k →
  under k x → is_Some (objects w !! x) →
  run (saveAsTextFile spark rdd p) w = (Raise (FileAlreadyExistsException k), w).
Proof.
  intros Hk Hx [v Hv]. unfold saveAsTextFile, fs_exists. simpl.
  rewrite Hk. simpl. rewrite bool_decide_true; [done|].
  intros Hno. rewrite nothing_under in Hno. by rewrite (Hno x Hx) in Hv.
Qed.

Context {Obj : Type} (json_str_of : Obj → string).

Lemma save_json_to_gcs_bind spark (obj : Obj) p w :
  run (save_json_to_gcs json_str_of spark obj p) w
  = match run (saveAsTextFile spark [[json_str_of obj]] p) (after_delete spark p w) with
    | (Ok _, w') =>
        (Ok (), World (objects w') (stdout w' ++ [" JSON saved to: " +:+ p]))
    | (Raise e, w') => (Raise e, w')
    end.
Proof.
  unfold save_json_to_gcs.
  change (run (?m ≫= ?f) w)
    with (match run m w with
          | (Ok a, w') => run (f a) w'
          | (Raise e, w') => (Raise e, w')
          end).
  rewrite delete_gcs_path_run.
  change (run (?m ≫= ?f) ?w')
    with (match run m w' with
          | (Ok a, w'') => run (f a) w''
          | (Raise e, w'') => (Raise e, w'')
          end).
  change (parallelize [json_str_of obj] 1) with [[json_str_of obj]].
  by destruct (run (saveAsTextFile _ _ _) _) as [[[]|e] w'].
Qed.

(** A write to a path whose delete and whose write act on one name. *)
Lemma save_json_to_gcs_run spark (obj : Obj) p k w :
  acts_on spark p k →
  run (save_json_to_gcs json_str_of spark obj p) w
  = (Ok (),
     World (<[k := [[json_str_of obj]]]> (cleared k (objects w)))
           (stdout w ++ [delete_message p k (objects w)] ++ [" JSON saved to: " +:+ p])).
Proof.
  intros [Hd Hs]. rewrite save_json_to_gcs_bind.
  rewrite (saveAsTextFile_run _ _ _ k) by
    (done || (intros x Hx; by rewrite lookup_after_delete, Hd, decide_True)).
  unfold after_delete. rewrite Hd. simpl. by rewrite <-(assoc_L (++)).
Qed.

(** C8. The second write to a path does not always replace the first.
    [delete_gcs_path] looks for the path component of the URI, while
    [saveAsTextFile] writes to Hadoop's [Path] of the string. When these
    two differ, or the string is no URI so that the delete is skipped, the
    first write to a free path succeeds and leaves its document there; the
    second write then finds it, raises [FileAlreadyExistsException], and
    the first document stays. *)
Theorem save_json_to_gcs_second_write_fails (spark : SparkSession)
    (obj1 obj2 : Obj) (p k : string) (w : world) :
  hadoop_Path spark p = Ok k →
  (∀ x, under k x → objects w !! x = None) →
  (∀ k', delete_target spark p = Ok k' → ¬ under k' k) →
  ∃ w1 w2,
    run (save_json_to_gcs json_str_of spark obj1 p) w = (Ok (), w1) ∧
    run (save_json_to_gcs json_str_of spark obj2 p) w1
      = (Raise (FileAlreadyExistsException k), w2) ∧
    objects w2 !! k = Some [[json_str_of obj1]].
Proof.
  intros Hk Hfree Hmiss.
  assert (∀ m : gmap string (list (list string)),
            match delete_target spark p with
            | Ok k' => if decide (under k' k) then None else m !! k
            | Raise _ => m !! k
            end = m !! k) as Hkeep.
  { intros m. destruct (delete_target spark p) as [k'|e]; [|done].
    by rewrite decide_False by by apply Hmiss. }
  eexists _, _. rewrite !save_json_to_gcs_bind.
  rewrite (saveAsTextFile_run _ _ _ k); [|done|].
  - split; [done|]. set (w1 := World _ _).
    rewrite (saveAsTextFile_exists _ _ _ k _ k); [|done|apply under_refl|].
    + split; [done|]. rewrite lookup_after_delete, Hkeep. subst w1. simpl.
      by rewrite lookup_insert_eq.
    + rewrite lookup_after_delete, Hkeep. subst w1. simpl.
      by rewrite lookup_insert_eq.
  - intros x Hx. rewrite lookup_after_delete.
    destruct (delete_target spark p) as [k'|e]; [|by apply Hfree].
    destruct (decide (under k' x)); [done|by apply Hfree].
Qed.

End sink_facts.

(** ** The [/results] endpoint *)

Section results_facts.
Context (BUCKET_NAME : string).
Context {Bucket : Type}.
Context (storage_client_bucket : string → result Bucket).
Context (blob_exists : Bucket → string → result bool).
Context (download_as_text : Bucket → string → result string).
Context (json_loads : string → result json).

#[local] Abbreviation read_problem :=
  (read_problem blob_exists download_as_text json_loads).
#[local] Abbreviation get_results :=
  (get_results BUCKET_NAME storage_client_bucket blob_exists download_as_text
     json_loads).

Lemma read_problem_missing bucket bucket_name name path results client_error :
  blob_exists bucket path = Ok false →
  read_problem bucket bucket_name name path (results, client_error)
  = (dict_set name (not_found bucket_name path) results, true).
Proof. intros E. unfold read_problem. by rewrite E. Qed.

Lemma read_problem_present bucket bucket_name name path results client_error
    content parsed :
  blob_exists bucket path = Ok true →
  download_as_text bucket path = Ok content →
  json_loads content = Ok parsed →
  read_problem bucket bucket_name name path (results, client_error)
  = (dict_set name parsed results, client_error).
Proof. intros E1 E2 E3. unfold read_problem. rewrite E1. simpl. rewrite E2. simpl. by rewrite E3. Qed.

(** C9. With [problem1/part-00000] absent and [problem2/part-00000] present
    and parseable in the bucket the client gives, the call returns status
    400, reports the first file as not found, with its path, and carries the
    parsed second file; and whatever the storage client and the parser do,
    the call returns a response and raises nothing. *)
Theorem get_results_one_missing (args : gmap string string) (bucket : Bucket)
    (content : string) (parsed : json) :
  let bucket_name := default BUCKET_NAME (args !! "bucket") in
  let path_prefix := with_slash (default "" (args !! "path")) in
  storage_client_bucket bucket_name = Ok bucket →
  blob_exists bucket (path_prefix +:+ "problem1/part-00000") = Ok false →
  blob_exists bucket (path_prefix +:+ "problem2/part-00000") = Ok true →
  download_as_text bucket (path_prefix +:+ "problem2/part-00000") = Ok content →
  json_loads content = Ok parsed →
  get_results args =
    Ok (JObj [("status", JStr "client_error");
              ("bucket", JStr bucket_name);
              ("results",
               JObj [("problem_1",
                      JObj [("error", JStr "File not found");
                            ("path", JStr ("gs://" +:+ bucket_name +:+ "/" +:+
                                           path_prefix +:+ "problem1/part-00000"))]);
                     ("problem_2", parsed)])],
        400) ∧
  (∀ args', ∃ body code, get_results args' = Ok (body, code)).
Proof.
  intros bucket_name path_prefix E0 E1 E2 E3 E4. split.
  - unfold get_results. fold bucket_name. fold path_prefix. rewrite E0.
    change (Ok bucket ≫= ?f) with (f bucket). cbv beta.
    rewrite (read_problem_missing _ _ _ _ _ _ E1).
    by rewrite (read_problem_present _ _ _ _ _ _ _ _ E2 E3 E4).
  - intros args'. unfold get_results.
    destruct (storage_client_bucket (default BUCKET_NAME (args' !! "bucket")))
      as [bucket'|e]; [|simpl; eauto].
    change (Ok bucket' ≫= ?f) with (f bucket'). cbv beta.
    destruct (read_problem bucket' _ _ _ (read_problem _ _ _ _ _))
      as [results client_error].
    simpl. eauto.
Qed.

End results_facts.

(** ** Average airtime: the fallback to [0.0] *)

Section avg_airtime.

Lemma la_to_ny_true r : la_to_ny r = Some true ↔ la_ny_timed r.
Proof.
  unfold la_to_ny, la_ny_timed, Sql.col_eq, Sql.isNotNull.
  destruct r as [[o|] [d|] [t|]]; simpl;
    repeat case_bool_decide; subst; simpl; split; try done.
  all: try by intros (? & ? & ?).
  all: try by intros ([= ->] & _).
  all: try by intros (_ & [= ->] & _).
  all: by destruct 1 as (_ & _ & []).
Qed.

Lemma filter_la_to_ny_nil flights :
  (∀ r, r ∈ flights → ¬ la_ny_timed r) → Sql.filter la_to_ny flights = [].
Proof.
  induction flights as [|r rs IH]; intros Hno; [done|].
  unfold Sql.filter in *. simpl. case_bool_decide as Hr.
  - exfalso. apply (Hno r); [left|]. by apply la_to_ny_true.
  - apply IH. intros r' Hr'. apply Hno. by right.
Qed.

(** C10. When no row is a Los Angeles to New York flight with a non-null
    airtime, the average is null and [air_flights_avg_airtime] returns
    exactly [0.0]; and an average that is a genuine zero is mapped to the
    same [0.0], so the two cases cannot be told apart. *)
Theorem air_flights_avg_airtime_fallback (flights : list flight_row) :
  ((∀ r, r ∈ flights → ¬ la_ny_timed r) →
     Sql.avg AirTime (Sql.filter la_to_ny flights) = None ∧
     air_flights_avg_airtime flights = 0%float) ∧
  (∀ v, Sql.avg AirTime (Sql.filter la_to_ny flights) = Some v →
        PrimFloat.eqb v 0%float = true →
        air_flights_avg_airtime flights = 0%float).
Proof.
  split.
  - intros Hno. unfold air_flights_avg_airtime.
    by rewrite (filter_la_to_ny_nil _ Hno).
  - intros v Hv Hz. unfold air_flights_avg_airtime.
    rewrite Hv. simpl. by rewrite Hz.
Qed.

Lemma air_flights_avg_airtime_fallback_witness :
  air_flights_avg_airtime
    [FlightRow (Some "Boston, MA") (Some "New York, NY") (Some 300%float);
     FlightRow (Some "Los Angeles, CA") (Some "New York, NY") None] = 0%float ∧
  air_flights_avg_airtime
    [FlightRow (Some "Los Angeles, CA") (Some "New York, NY") (Some 0%float)] = 0%float.
Proof.
  split.
  - refine (proj2 (proj1 (air_flights_avg_airtime_fallback _) _)).
    intros r Hr [Ho [_ Ht]].
    apply elem_of_cons in Hr as [-> | Hr]; [discriminate Ho|].
    apply elem_of_cons in Hr as [-> | Hr]; [by apply Ht|].
    by apply elem_of_nil in Hr.
  - apply (proj2 (air_flights_avg_airtime_fallback _) 0%float); reflexivity.
Defined.

End avg_airtime.

(** ** The properties at concrete inputs *)

Section examples.

Example spec_example :
  co_occurring_airline_pairs_by_origin example_lines = Ok example_result.
Proof. vm_compute. reflexivity. Qed.

Example five_airlines_result :
  co_occurring_airline_pairs_by_origin five_airlines = Ok ten_pairs.
Proof. vm_compute. reflexivity. Qed.

Lemma co_occurrence_counts_witness :
  ∃ out,
    co_occurring_airline_pairs_by_origin example_lines = Ok out ∧
    NoDup out.*1 ∧
    (∀ a b n, a ≠ b →
       ((a, b), n) ∈ out ∨ ((b, a), n) ∈ out ↔
       n = Z.of_nat (co_occurrence_count (record_of <$> example_lines) a b) ∧
       (0 < n)%Z) ∧
    (∀ airlines, length (set airlines) ≤ 1 → generate_pairs airlines = []) ∧
    (∀ date airline origin,
       comma_free date → comma_free airline → comma_free origin →
       has_three_fields (line_of date airline origin) ∧
       record_of (line_of date airline origin) = ((date, origin), airline)).
Proof. apply (co_occurrence_counts example_lines). by_computation. Defined.

Lemma output_ranked_deterministic_witness :
  StronglySorted ranked_before example_result ∧
  (∀ x y : pair_count, x ≠ y → ranked_before x y ∨ ranked_before y x) ∧
  (∀ lines', lines' ≡ₚ example_lines →
     co_occurring_airline_pairs_by_origin lines' = Ok example_result).
Proof.
  apply (output_ranked_deterministic example_lines example_result).
  vm_compute. reflexivity.
Defined.

Lemma pair_keys_canonical_witness :
  (∀ airlines a b n, ((a, b), n) ∈ generate_pairs airlines → str_lt a b) ∧
  (∀ a b n, ((a, b), n) ∈ example_result →
     str_lt a b ∧ ∀ m, ((b, a), m) ∉ example_result).
Proof.
  apply (pair_keys_canonical example_lines example_result).
  vm_compute. reflexivity.
Defined.

Lemma shard_merge_equals_whole_witness :
  ∃ out,
    co_occurring_airline_pairs_by_origin example_lines = Ok out ∧
    (list_to_map (merge_counts [(("AA", "DL"), 1%Z)]
                    [(("AA", "DL"), 1%Z); (("AA", "UA"), 1%Z); (("DL", "UA"), 1%Z)])
       : gmap (string * string) Z) = list_to_map out ∧
    RDD.sortBy sort_key
      (merge_counts [(("AA", "DL"), 1%Z)]
         [(("AA", "DL"), 1%Z); (("AA", "UA"), 1%Z); (("DL", "UA"), 1%Z)]) = out.
Proof.
  apply (shard_merge_equals_whole example_lines
           (take 2 example_lines) (drop 2 example_lines)).
  - reflexivity.
  - intros l1 l2 Hl1%list_elem_of_In Hl2%list_elem_of_In. simpl in Hl1, Hl2.
    destruct Hl1 as [<-|[<-|[]]], Hl2 as [<-|[<-|[<-|[<-|[]]]]];
      vm_compute; discriminate.
  - vm_compute. reflexivity.
  - vm_compute. reflexivity.
Defined.

Lemma formatted_p1_needs_ten_pairs_witness :
  formatted_p1 example_result = Raise IndexError ∧
  main_problem1 example_lines = Raise IndexError ∧
  (∃ d, formatted_p1 ten_pairs = Ok d) ∧
  (∃ d, main_problem1 five_airlines = Ok d).
Proof.
  split_and!.
  - apply (proj1 (formatted_p1_needs_ten_pairs example_result)). simpl. lia.
  - apply (proj2 (proj2 (formatted_p1_needs_ten_pairs example_result))
             example_lines); [vm_compute; reflexivity|simpl; lia].
  - apply (proj1 (proj2 (formatted_p1_needs_ten_pairs ten_pairs))). simpl. lia.
  - apply (proj2 (proj2 (formatted_p1_needs_ten_pairs ten_pairs))
             five_airlines); [vm_compute; reflexivity|simpl; lia].
Defined.

Lemma result_document_shape_witness :
  ∃ d, formatted_p1 ten_pairs = Ok d ∧
    dom d = list_to_set ["1"; "2"; "3"; "4"; "5"; "6"; "7"; "8"; "9"; "10"] ∧
    (∀ i e, i < 10 → ten_pairs !! i = Some e →
       d !! str (i + 1) =
         Some {| flight_1 := e.1.1; flight_2 := e.1.2; common_origin := e.2 |}) ∧
    (∀ lines, co_occurring_airline_pairs_by_origin lines = Ok ten_pairs →
       ∀ k v, d !! k = Some v → str_lt (flight_1 v) (flight_2 v)).
Proof. apply (result_document_shape ten_pairs). simpl. lia. Defined.

Lemma malformed_rows_abort_or_count_witness :
  co_occurring_airline_pairs_by_origin ["2021-01-01,AA,LAX"; "2021-01-01,DL"]
    = Raise IndexError ∧
  date_origin_airline_of ["2021-01-01,,LAX"; "2021-01-01,AA,LAX"]
    = Ok [(("2021-01-01", "LAX"), ""); (("2021-01-01", "LAX"), "AA")] ∧
  record_of (line_of "2021-01-01" "" "LAX") = (("2021-01-01", "LAX"), "").
Proof.
  split_and!.
  - apply (proj1 (malformed_rows_abort_or_count
                    ["2021-01-01,AA,LAX"; "2021-01-01,DL"])).
    apply Exists_cons_tl, Exists_cons_hd. vm_compute. lia.
  - apply (proj1 (proj2 (malformed_rows_abort_or_count
                           ["2021-01-01,,LAX"; "2021-01-01,AA,LAX"]))).
    by_computation.
  - apply (proj2 (proj2 (malformed_rows_abort_or_count []))); by_computation.
Defined.

Lemma save_json_to_gcs_second_write_fails_witness :
  (∃ w1 w2,
     run (save_json_to_gcs (λ s : string, s) example_spark "old"
            "gs://bucket/my base/problem1") (World ∅ []) = (Ok (), w1) ∧
     run (save_json_to_gcs (λ s : string, s) example_spark "new"
            "gs://bucket/my base/problem1") w1
       = (Raise (FileAlreadyExistsException "gs://bucket/my base/problem1"), w2) ∧
     objects w2 !! "gs://bucket/my base/problem1" = Some [["old"]]) ∧
  (∃ w1 w2,
     run (save_json_to_gcs (λ s : string, s) example_spark "old"
            "gs://bucket/a%41") (World ∅ []) = (Ok (), w1) ∧
     run (save_json_to_gcs (λ s : string, s) example_spark "new"
            "gs://bucket/a%41") w1
       = (Raise (FileAlreadyExistsException "gs://bucket/a%41"), w2) ∧
     objects w2 !! "gs://bucket/a%41" = Some [["old"]]).
Proof.
  split.
  - apply (save_json_to_gcs_second_write_fails (λ s : string, s) example_spark
             "old" "new" "gs://bucket/my base/problem1").
    + reflexivity.
    + intros x _. apply lookup_empty.
    + intros k' Hk'. vm_compute in Hk'. discriminate Hk'.
  - apply (save_json_to_gcs_second_write_fails (λ s : string, s) example_spark
             "old" "new" "gs://bucket/a%41").
    + reflexivity.
    + intros x _. apply lookup_empty.
    + intros k' Hk'. vm_compute in Hk'. injection Hk' as <-. by_computation.
Defined.

Lemma get_results_one_missing_witness :
  get_results "storage-dataproc-cluster-bucket" example_bucket
    (λ _ path, Ok (bool_decide (path = "out/problem2/part-00000")))
    (λ _ _, Ok "[]") (λ _, Ok (JArr []))
    {["path" := "out"]}
  = Ok (JObj [("status", JStr "client_error");
              ("bucket", JStr "storage-dataproc-cluster-bucket");
              ("results",
               JObj [("problem_1",
                      JObj [("error", JStr "File not found");
                            ("path", JStr "gs://storage-dataproc-cluster-bucket/out/problem1/part-00000")]);
                     ("problem_2", JArr [])])],
        400).
Proof.
  refine (proj1 (get_results_one_missing "storage-dataproc-cluster-bucket"
           example_bucket
           (λ _ path, Ok (bool_decide (path = "out/problem2/part-00000")))
           (λ _ _, Ok "[]") (λ _, Ok (JArr []))
           {["path" := "out"]} "storage-dataproc-cluster-bucket" "[]" (JArr [])
           _ _ _ _ _)); reflexivity.
Defined.

End examples.

(** * Further properties *)

(** ** Further properties of the aggregation *)

Section aggregation_more.
Implicit Types (lines : list string) (out : list pair_count) (a b : string).

Lemma length_pairs_of {A} (u : list A) :
  2 * length (pairs_of u) = length u * (length u - 1).
Proof.
  induction u as [|x u IH]; [done|].
  simpl. rewrite length_app, length_fmap, Nat.sub_0_r.
  destruct u as [|y u]; [done|]. simpl in *. nia.
Qed.

(** X1. A group with [n] distinct airlines emits [n * (n - 1) / 2] pair
    increments, whatever the order and the repetitions of its airlines. *)
Theorem generate_pairs_length (airlines : list string) :
  length (generate_pairs airlines)
  = length (set airlines) * (length (set airlines) - 1) / 2.
Proof.
  rewrite generate_pairs_eq, length_fmap.
  assert (length (sorted (set airlines)) = length (set airlines)) as <-.
  { unfold sorted. by rewrite merge_sort_Permutation. }
  rewrite <-length_pairs_of, Nat.mul_comm. by rewrite Nat.div_mul.
Qed.

Lemma groups_same_elements (recs recs' : list ((string * string) * string)) :
  (∀ x, x ∈ recs ↔ x ∈ recs') → groups recs ≡ₚ groups recs'.
Proof.
  intros Hs. unfold groups. apply NoDup_Permutation; [apply NoDup_remove_dups..|].
  intros g. rewrite !elem_of_remove_dups, !list_elem_of_fmap.
  split; intros (x & -> & Hx); exists x; (split; [done|]); by apply Hs.
Qed.

Lemma aggregate_same_elements (recs recs' : list ((string * string) * string)) :
  (∀ x, x ∈ recs ↔ x ∈ recs') → aggregate recs ≡ₚ aggregate recs'.
Proof.
  intros Hs. apply NoDup_Permutation; [apply NoDup_aggregate..|].
  intros [[a b] n]. rewrite !elem_of_aggregate.
  assert (co_occurrence_count recs a b = co_occurrence_count recs' a b) as ->; [|done].
  unfold co_occurrence_count. rewrite (groups_same_elements _ _ Hs).
  f_equal. apply list_filter_iff. intros g. by rewrite !Hs.
Qed.

(** X2. The result depends only on which lines occur in the input: two
    inputs with the same lines, in any order and with any repetitions, give
    the same result. *)
Theorem duplicate_lines_do_not_count lines lines' out :
  (∀ line, line ∈ lines ↔ line ∈ lines') →
  co_occurring_airline_pairs_by_origin lines = Ok out →
  co_occurring_airline_pairs_by_origin lines' = Ok out.
Proof.
  intros Hs [Hall ->]%co_occurring_inv.
  rewrite co_occurring_Ok.
  - f_equal. apply sortBy_perm_eq, aggregate_same_elements.
    intros x. rewrite !list_elem_of_fmap.
    split; intros (l & -> & Hl); exists l; (split; [done|]); by apply Hs.
  - rewrite Forall_forall in Hall |- *. intros l Hl. by apply Hall, Hs.
Qed.

Lemma duplicate_lines_do_not_count_witness :
  co_occurring_airline_pairs_by_origin
    ["2021-01-01,DL,LAX"; "2021-01-01,AA,LAX"; "2021-01-01,DL,LAX";
     "2021-01-01,AA,LAX"]
  = Ok [(("AA", "DL"), 1%Z)].
Proof.
  apply (duplicate_lines_do_not_count ["2021-01-01,AA,LAX"; "2021-01-01,DL,LAX"]).
  - intros line. rewrite !elem_of_cons, !elem_of_nil. tauto.
  - vm_compute. reflexivity.
Defined.

Lemma co_occurrence_count_le_groups recs a b :
  co_occurrence_count recs a b ≤ length (groups recs).
Proof. apply length_filter. Qed.

Lemma length_groups_le (recs : list ((string * string) * string)) :
  length (groups recs) ≤ length recs.
Proof.
  unfold groups. rewrite <-(length_fmap fst recs).
  apply submseteq_length, NoDup_submseteq; [apply NoDup_remove_dups|].
  intros g. by rewrite elem_of_remove_dups.
Qed.

Lemma co_occurrence_count_pos recs a b :
  0 < co_occurrence_count recs a b →
  ∃ g, (g, a) ∈ recs ∧ (g, b) ∈ recs.
Proof.
  unfold co_occurrence_count. intros Hpos.
  destruct (filter _ (groups recs)) as [|g gs] eqn:E; [simpl in Hpos; lia|].
  assert (g ∈ filter (λ g, (g, a) ∈ recs ∧ (g, b) ∈ recs) (groups recs)) as Hg.
  { rewrite E. left. }
  apply list_elem_of_filter in Hg as [Hg _]. eauto.
Qed.

(** X3. Every entry of the result comes from the input: its two codes are
    the airlines of two lines of one (date, origin) group, and its count is
    at least 1 and at most the number of distinct groups, so at most the
    number of lines. *)
Theorem result_entries_come_from_input lines out a b n :
  co_occurring_airline_pairs_by_origin lines = Ok out →
  ((a, b), n) ∈ out →
  (∃ la lb, la ∈ lines ∧ lb ∈ lines ∧ group_of la = group_of lb ∧
            airline_of la = a ∧ airline_of lb = b) ∧
  (1 ≤ n ≤ Z.of_nat (length (groups (record_of <$> lines))))%Z ∧
  length (groups (record_of <$> lines)) ≤ length lines.
Proof.
  intros [Hall ->]%co_occurring_inv. rewrite sortBy_perm, elem_of_aggregate.
  intros (Hab & -> & Hpos). split_and!.
  - destruct (co_occurrence_count_pos (record_of <$> lines) a b) as (g & Ha & Hb); [lia|].
    apply list_elem_of_fmap in Ha as (la & Ea & Hla).
    apply list_elem_of_fmap in Hb as (lb & Eb & Hlb).
    exists la, lb. unfold group_of, airline_of. rewrite <-Ea, <-Eb. done.
  - lia.
  - pose proof (co_occurrence_count_le_groups (record_of <$> lines) a b). lia.
  - rewrite <-(length_fmap record_of lines). apply length_groups_le.
Qed.

Lemma result_entries_come_from_input_witness :
  (∃ la lb, la ∈ example_lines ∧ lb ∈ example_lines ∧ group_of la = group_of lb ∧
            airline_of la = "AA" ∧ airline_of lb = "DL") ∧
  (1 ≤ 2 ≤ Z.of_nat (length (groups (record_of <$> example_lines))))%Z ∧
  length (groups (record_of <$> example_lines)) ≤ length example_lines.
Proof.
  apply (result_entries_come_from_input example_lines example_result "AA" "DL" 2).
  - vm_compute. reflexivity.
  - left.
Defined.

End aggregation_more.

(** ** Splitting a line *)

Section splitting.

Lemma split_nonempty sep s : split sep s ≠ [].
Proof. destruct s as [|c s]; simpl; [done|]. by repeat case_match. Qed.

Lemma concat_cons_cons sep x y ys :
  String.concat sep (x :: y :: ys) = x +:+ sep +:+ String.concat sep (y :: ys).
Proof. done. Qed.

Lemma join_split s : String.concat "," (split ","%char s) = s.
Proof.
  induction s as [|c s IH]; [done|]. simpl.
  destruct (split ","%char s) as [|w ws] eqn:E; [by destruct (split_nonempty _ _ E)|].
  destruct (Ascii.eqb_spec c ","%char) as [->|Hc].
  - rewrite concat_cons_cons, IH. done.
  - destruct ws as [|w' ws].
    + simpl in *. by rewrite IH.
    + rewrite <-IH, !concat_cons_cons. done.
Qed.

Lemma split_comma_free_fields s : Forall comma_free (split ","%char s).
Proof.
  induction s as [|c s IH]; simpl; [by repeat constructor|].
  destruct (Ascii.eqb_spec c ","%char) as [->|Hc].
  - by constructor.
  - destruct (split ","%char s) as [|w ws]; [by repeat constructor|].
    apply Forall_cons in IH as [Hw Hws]. by repeat constructor.
Qed.

Lemma length_split s : length (split ","%char s) = S (commas s).
Proof.
  induction s as [|c s IH]; [done|]. simpl.
  destruct (Ascii.eqb c ","%char); simpl.
  - by rewrite IH.
  - destruct (split ","%char s) as [|w ws]; simpl in *; [done|]. done.
Qed.

(** X4. Splitting a line at its commas loses nothing: joining the fields
    with commas gives the line back, no field holds a comma, and there is
    one field more than there are commas. *)
Theorem split_join_round_trip (line : string) :
  String.concat "," (split ","%char line) = line ∧
  Forall comma_free (split ","%char line) ∧
  length (split ","%char line) = S (commas line).
Proof.
  split_and!; [apply join_split|apply split_comma_free_fields|apply length_split].
Qed.

(** X5. The run aborts with [IndexError] exactly when some line holds
    fewer than two commas; otherwise it returns a result. *)
Theorem aborts_iff_line_with_fewer_than_two_commas (lines : list string) :
  (co_occurring_airline_pairs_by_origin lines = Raise IndexError
   ↔ Exists (λ line, commas line < 2) lines) ∧
  ((∃ out, co_occurring_airline_pairs_by_origin lines = Ok out)
   ↔ Forall (λ line, 2 ≤ commas line) lines).
Proof.
  assert (∀ line, has_three_fields line ↔ 2 ≤ commas line) as Hthree.
  { intros line. unfold has_three_fields. rewrite length_split. lia. }
  destruct (decide (Forall has_three_fields lines)) as [Hall|Hex].
  - rewrite co_occurring_Ok by done. split; split; try done.
    + intros Hex. apply Exists_exists in Hex as (l & Hl & Hc).
      rewrite Forall_forall in Hall. apply Hall, Hthree in Hl. lia.
    + intros _. eapply Forall_impl; [done|]. intros l. apply Hthree.
    + eauto.
  - apply not_Forall_Exists in Hex; [|apply _].
    unfold co_occurring_airline_pairs_by_origin.
    rewrite date_origin_airline_of_Raise by done. simpl. split; split; try done.
    + intros _. eapply Exists_impl; [done|]. intros l Hl. simpl in Hl.
      rewrite Hthree in Hl. lia.
    + by intros [out ?].
    + intros Hall. apply Exists_exists in Hex as (l & Hl & Hc).
      rewrite Forall_forall in Hall. destruct Hc. by apply Hthree, Hall.
Qed.

End splitting.

(** ** The top-10 slice *)

Section top10_more.

(** X6. Only the first ten entries of the result reach the document:
    whatever follows them changes nothing. *)
Theorem formatted_p1_uses_first_ten (r extra : list pair_count) :
  10 ≤ length r → formatted_p1 (r ++ extra) = formatted_p1 (take 10 r).
Proof.
  intros Hr. rewrite !formatted_p1_eq.
  rewrite !decide_True by (rewrite ?length_app, ?length_take; lia).
  by rewrite take_app_le, take_take by done.
Qed.

Lemma formatted_p1_uses_first_ten_witness :
  formatted_p1 (ten_pairs ++ [(("UA", "ZZ"), 1%Z)]) = formatted_p1 (take 10 ten_pairs).
Proof. apply (formatted_p1_uses_first_ten ten_pairs). simpl. lia. Defined.

End top10_more.

(** ** More on the [/results] endpoint *)

Section endswith_slash.

Lemma substring_end s : String.substring (String.length s) 1 (s +:+ "/") = "/".
Proof. induction s as [|c s IH]; [done|]. simpl. apply IH. Qed.

Lemma length_append s t : String.length (s +:+ t) = String.length s + String.length t.
Proof. induction s as [|c s IH]; [done|]. simpl. by rewrite IH. Qed.

Lemma endswith_append_slash s : endswith (s +:+ "/") "/" = true.
Proof.
  unfold endswith. rewrite length_append. simpl String.length.
  rewrite bool_decide_true by lia.
  replace (String.length s + 1 - 1) with (String.length s) by lia.
  by rewrite substring_end.
Qed.

Lemma endswith_slash_inv s : endswith s "/" = true → ∃ p, s = p +:+ "/".
Proof.
  induction s as [|c s IH]; [done|].
  destruct s as [|c' s].
  - unfold endswith. simpl. destruct (Ascii.eqb_spec c "/"%char) as [->|]; [|done].
    intros _. by exists "".
  - intros E. destruct IH as [p Hp].
    + revert E. unfold endswith. simpl String.length.
      rewrite !bool_decide_true by lia. simpl.
      by rewrite !Nat.sub_0_r.
    + exists (String c p). by rewrite Hp.
Qed.

Lemma with_slash_cases s :
  (s = "" ∧ with_slash s = "") ∨
  (s ≠ "" ∧ endswith s "/" = true ∧ with_slash s = s) ∨
  (s ≠ "" ∧ endswith s "/" = false ∧ with_slash s = s +:+ "/").
Proof.
  unfold with_slash. destruct (decide (s = "")) as [->|Hs]; [by left|].
  right. rewrite bool_decide_true by done.
  destruct (endswith s "/"); simpl; [left|right]; done.
Qed.

Lemma with_slash_other s :
  s ≠ "" → (∀ p, s ≠ p +:+ "/") → with_slash s = s +:+ "/".
Proof.
  intros Hs Hp. destruct (with_slash_cases s) as [[E _]|[(_ & He & _)|(_ & _ & E)]];
    [done| |done].
  destruct (endswith_slash_inv s He) as [p E]. by destruct (Hp p).
Qed.

Lemma with_slash_slash p : with_slash (p +:+ "/") = p +:+ "/".
Proof.
  unfold with_slash. by rewrite endswith_append_slash, andb_false_r.
Qed.

(** X7. [with_slash] leaves the empty prefix empty, returns a prefix
    that ends in a slash as it is, and appends one slash to every other
    prefix. So its result is empty only for the empty prefix, and applying
    it twice changes nothing more. *)
Theorem with_slash_normalises (s : string) :
  with_slash "" = "" ∧
  with_slash (s +:+ "/") = s +:+ "/" ∧
  (s ≠ "" → (∀ p, s ≠ p +:+ "/") → with_slash s = s +:+ "/") ∧
  (with_slash s = "" ↔ s = "") ∧
  with_slash (with_slash s) = with_slash s.
Proof.
  split_and!; [done|apply with_slash_slash|apply with_slash_other| |].
  - destruct (with_slash_cases s) as [[-> E]|[(Hs & He & E)|(Hs & He & E)]];
      rewrite E; [done|done|].
    split; [|by intros ->]. by destruct s.
  - destruct (with_slash_cases s) as [[-> E]|[(Hs & He & E)|(Hs & He & E)]];
      rewrite E; [done|by rewrite E|apply with_slash_slash].
Qed.

End endswith_slash.

Section results_more.
Context (BUCKET_NAME : string).
Context {Bucket : Type}.
Context (storage_client_bucket : string → result Bucket).
Context (blob_exists : Bucket → string → result bool).
Context (download_as_text : Bucket → string → result string).
Context (json_loads : string → result json).

#[local] Abbreviation read_problem' :=
  (read_problem blob_exists download_as_text json_loads).
#[local] Abbreviation get_results' :=
  (get_results BUCKET_NAME storage_client_bucket blob_exists download_as_text
     json_loads).
#[local] Abbreviation read_raises' :=
  (read_raises blob_exists download_as_text json_loads).
#[local] Abbreviation reads_as' :=
  (reads_as blob_exists download_as_text json_loads).

Lemma read_problem_flag bucket bucket_name name path results client_error :
  ∃ entry,
    read_problem' bucket bucket_name name path (results, client_error)
    = (dict_set name entry results,
       client_error || is_missing (blob_exists bucket path)).
Proof.
  unfold read_problem.
  destruct (blob_exists bucket path) as [[|]|e]; simpl.
  - destruct (download_as_text bucket path) as [content|e]; simpl.
    + destruct (json_loads content) as [parsed|e]; simpl;
        eexists; by rewrite orb_false_r.
    + eexists; by rewrite orb_false_r.
  - eexists. by rewrite orb_true_r.
  - eexists. by rewrite orb_false_r.
Qed.

Lemma read_problem_reads bucket bucket_name name path results client_error parsed :
  reads_as' bucket path parsed →
  read_problem' bucket bucket_name name path (results, client_error)
  = (dict_set name parsed results, client_error).
Proof.
  intros (E1 & content & E2 & E3). unfold read_problem.
  rewrite E1. simpl. rewrite E2. simpl. by rewrite E3.
Qed.

Lemma read_problem_raises bucket bucket_name name path results client_error e :
  read_raises' bucket path e →
  read_problem' bucket bucket_name name path (results, client_error)
  = (dict_set name (read_error e bucket_name path) results, client_error).
Proof.
  unfold read_problem.
  intros [E1|(E1 & [E2|(content & E2 & E3)])]; rewrite E1; simpl; [done|..];
    rewrite E2; simpl; [done|]. by rewrite E3.
Qed.

(** The body of [get_results] once the client has given the bucket. *)
Lemma get_results_bucket args bucket :
  let bucket_name := default BUCKET_NAME (args !! "bucket") in
  let path_prefix := with_slash (default "" (args !! "path")) in
  storage_client_bucket bucket_name = Ok bucket →
  get_results' args =
    let '(results, client_error) :=
      read_problem' bucket bucket_name "problem_2"
        (path_prefix +:+ "problem2/part-00000")
        (read_problem' bucket bucket_name "problem_1"
           (path_prefix +:+ "problem1/part-00000") ([], false)) in
    Ok (JObj [("status", JStr (if client_error then "client_error" else "success"));
              ("bucket", JStr bucket_name);
              ("results", JObj results)],
        if client_error then 400 else 200).
Proof.
  intros bucket_name path_prefix E. unfold get_results.
  fold bucket_name. fold path_prefix. rewrite E.
  change (Ok bucket ≫= ?f) with (f bucket). cbv beta zeta.
  by destruct (read_problem' bucket _ _ _ (read_problem' _ _ _ _ _)).
Qed.

(** X8. [/results] always answers, with 200, 400 or 500. When the
    client refuses the bucket name the answer is 500 with the text of the
    exception. When it gives the bucket, the body holds the status, the
    bucket name and, under ["results"], one entry for [problem_1] and one
    for [problem_2] and no other; the code is 400 with status
    ["client_error"] exactly when [exists()] answered false for one of the
    two files, and 200 with status ["success"] otherwise. *)
Theorem get_results_response_shape (args : gmap string string) :
  let bucket_name := default BUCKET_NAME (args !! "bucket") in
  let path_prefix := with_slash (default "" (args !! "path")) in
  (∃ body code, get_results' args = Ok (JObj body, code) ∧
                (code = 200 ∨ code = 400 ∨ code = 500)) ∧
  (∀ e, storage_client_bucket bucket_name = Raise e →
        get_results' args
        = Ok (JObj [("status", JStr "error"); ("message", JStr (str_exn e))], 500)) ∧
  (∀ bucket, storage_client_bucket bucket_name = Ok bucket →
     let missing :=
       is_missing (blob_exists bucket (path_prefix +:+ "problem1/part-00000")) ||
       is_missing (blob_exists bucket (path_prefix +:+ "problem2/part-00000")) in
     ∃ body results,
       get_results' args = Ok (JObj body, if missing then 400 else 200) ∧
       dict_get "status" body
         = Some (JStr (if missing then "client_error" else "success")) ∧
       dict_get "bucket" body = Some (JStr bucket_name) ∧
       dict_get "results" body = Some (JObj results) ∧
       length body = 3 ∧
       is_Some (dict_get "problem_1" results) ∧
       is_Some (dict_get "problem_2" results) ∧
       length results = 2).
Proof.
  intros bucket_name path_prefix.
  assert (∀ bucket, storage_client_bucket bucket_name = Ok bucket →
    ∃ entry_1 entry_2,
      get_results' args =
        let missing :=
          is_missing (blob_exists bucket (path_prefix +:+ "problem1/part-00000")) ||
          is_missing (blob_exists bucket (path_prefix +:+ "problem2/part-00000")) in
        Ok (JObj [("status", JStr (if missing then "client_error" else "success"));
                  ("bucket", JStr bucket_name);
                  ("results", JObj [("problem_1", entry_1); ("problem_2", entry_2)])],
            if missing then 400 else 200)) as Hbody.
  { intros bucket E. rewrite (get_results_bucket _ _ E).
    fold bucket_name. fold path_prefix.
    destruct (read_problem_flag bucket bucket_name "problem_1"
                (path_prefix +:+ "problem1/part-00000") [] false) as [e1 ->].
    destruct (read_problem_flag bucket bucket_name "problem_2"
                (path_prefix +:+ "problem2/part-00000")
                (dict_set "problem_1" e1 [])
                (false || is_missing (blob_exists bucket
                                        (path_prefix +:+ "problem1/part-00000"))))
      as [e2 ->].
    by exists e1, e2. }
  split_and!.
  - destruct (storage_client_bucket bucket_name) as [bucket|e] eqn:E.
    + destruct (Hbody bucket eq_refl) as (e1 & e2 & ->). cbv zeta.
      eexists _, _. split; [done|]. destruct (_ || _); auto.
    + unfold get_results. fold bucket_name. rewrite E. simpl. eauto 10.
  - intros e E. unfold get_results. fold bucket_name. by rewrite E.
  - intros bucket E missing. destruct (Hbody bucket E) as (e1 & e2 & ->).
    fold missing. eexists _, _. split; [done|]. by split_and!.
Qed.

(** X9. With both files present and parseable in the bucket the client
    gives, the response is 200 with status ["success"] and carries both
    parsed documents. *)
Theorem get_results_both_present (args : gmap string string) (bucket : Bucket)
    (parsed_1 parsed_2 : json) :
  let bucket_name := default BUCKET_NAME (args !! "bucket") in
  let path_prefix := with_slash (default "" (args !! "path")) in
  storage_client_bucket bucket_name = Ok bucket →
  reads_as' bucket (path_prefix +:+ "problem1/part-00000") parsed_1 →
  reads_as' bucket (path_prefix +:+ "problem2/part-00000") parsed_2 →
  get_results' args =
    Ok (JObj [("status", JStr "success");
              ("bucket", JStr bucket_name);
              ("results", JObj [("problem_1", parsed_1); ("problem_2", parsed_2)])],
        200).
Proof.
  intros bucket_name path_prefix E H1 H2. rewrite (get_results_bucket _ _ E).
  fold bucket_name. fold path_prefix.
  rewrite (read_problem_reads _ _ _ _ _ _ _ H1).
  by rewrite (read_problem_reads _ _ _ _ _ _ _ H2).
Qed.

(** X10. A read that raises is reported in its own entry, with the text
    of the exception and the path, and does not count as a client error:
    when reading [problem_1] raises and [problem_2] is read, the response
    is still 200 with status ["success"]. *)
Theorem get_results_read_error_is_success (args : gmap string string)
    (bucket : Bucket) (e : exn) (parsed_2 : json) :
  let bucket_name := default BUCKET_NAME (args !! "bucket") in
  let path_prefix := with_slash (default "" (args !! "path")) in
  storage_client_bucket bucket_name = Ok bucket →
  read_raises' bucket (path_prefix +:+ "problem1/part-00000") e →
  reads_as' bucket (path_prefix +:+ "problem2/part-00000") parsed_2 →
  get_results' args =
    Ok (JObj [("status", JStr "success");
              ("bucket", JStr bucket_name);
              ("results",
               JObj [("problem_1",
                      JObj [("error", JStr (str_exn e));
                            ("path", JStr ("gs://" +:+ bucket_name +:+ "/" +:+
                                           path_prefix +:+ "problem1/part-00000"))]);
                     ("problem_2", parsed_2)])],
        200).
Proof.
  intros bucket_name path_prefix E H1 H2. rewrite (get_results_bucket _ _ E).
  fold bucket_name. fold path_prefix.
  rewrite (read_problem_raises _ _ _ _ _ _ _ H1).
  by rewrite (read_problem_reads _ _ _ _ _ _ _ H2).
Qed.

End results_more.

Lemma get_results_both_present_witness :
  get_results "storage-dataproc-cluster-bucket" example_bucket
    (λ _ _, Ok true) (λ _ path, Ok path) (λ content, Ok (JStr content))
    {["bucket" := "results"; "path" := "run7/"]}
  = Ok (JObj [("status", JStr "success");
              ("bucket", JStr "results");
              ("results", JObj [("problem_1", JStr "run7/problem1/part-00000");
                                ("problem_2", JStr "run7/problem2/part-00000")])],
        200).
Proof.
  refine (get_results_both_present "storage-dataproc-cluster-bucket" example_bucket
            (λ _ _, Ok true) (λ _ path, Ok path) (λ content, Ok (JStr content))
            {["bucket" := "results"; "path" := "run7/"]} "results"
            (JStr "run7/problem1/part-00000") (JStr "run7/problem2/part-00000") _ _ _).
  - reflexivity.
  - split; [done|]. eexists. split; reflexivity.
  - split; [done|]. eexists. split; reflexivity.
Defined.

Lemma get_results_read_error_is_success_witness :
  get_results "storage-dataproc-cluster-bucket" example_bucket
    (λ _ _, Ok true) (λ _ path, Ok path)
    (λ content, if bool_decide (content = "problem1/part-00000")
                then Raise (Exception "Expecting value: line 1 column 1 (char 0)")
                else Ok (JArr []))
    ∅
  = Ok (JObj [("status", JStr "success");
              ("bucket", JStr "storage-dataproc-cluster-bucket");
              ("results",
               JObj [("problem_1",
                      JObj [("error", JStr "Expecting value: line 1 column 1 (char 0)");
                            ("path", JStr "gs://storage-dataproc-cluster-bucket/problem1/part-00000")]);
                     ("problem_2", JArr [])])],
        200).
Proof.
  refine (get_results_read_error_is_success "storage-dataproc-cluster-bucket"
            example_bucket (λ _ _, Ok true) (λ _ path, Ok path)
            (λ content, if bool_decide (content = "problem1/part-00000")
                        then Raise (Exception "Expecting value: line 1 column 1 (char 0)")
                        else Ok (JArr []))
            ∅ "storage-dataproc-cluster-bucket"
            (Exception "Expecting value: line 1 column 1 (char 0)") (JArr []) _ _ _).
  - reflexivity.
  - right. split; [done|]. right. eexists. split; reflexivity.
  - split; [done|]. eexists. split; reflexivity.
Defined.

(** ** Job submission and job status *)

Section dicts.
Context {V : Type}.
Implicit Types (d : list (string * V)) (k : string) (v : V).

Lemma dict_get_set_eq k v d : dict_get k (dict_set k v d) = Some v.
Proof.
  induction d as [|[k' v'] d IH]; simpl.
  - by rewrite decide_True.
  - destruct (decide (k' = k)) as [->|Hne]; simpl.
    + by rewrite decide_True.
    + by rewrite decide_False.
Qed.

Lemma dict_get_set_ne k k' v d : k ≠ k' → dict_get k' (dict_set k v d) = dict_get k' d.
Proof.
  intros Hne. induction d as [|[k'' v''] d IH]; simpl.
  - by rewrite decide_False.
  - destruct (decide (k'' = k)) as [->|Hne']; simpl.
    + by rewrite !decide_False.
    + by rewrite IH.
Qed.
End dicts.

Section create_job_facts.
Context (unsupported : string → json → string).
Context (CLUSTER_NAME : string).
Context {S : Type}.
Context (submit_job : json → json → json → S → result string * S).

#[local] Abbreviation create_job' :=
  (create_job unsupported CLUSTER_NAME submit_job).

(** X11. A request whose body is empty ([None], [{}], [[]], ...), or is an
    object or an array without ["main_python_file"], is answered with 400
    and the missing-field message, and the job service is not called. *)
Theorem create_job_missing_field (data : json) (s : S) :
  json_truthy data = false ∨
  (∃ fields, data = JObj fields ∧ dict_get "main_python_file" fields = None) ∨
  (∃ items, data = JArr items ∧ JStr "main_python_file" ∉ items) →
  run_on (create_job' (Ok data)) s
  = (Ok (JObj [("error", JStr "Missing required field: main_python_file")], 400), s).
Proof.
  intros [Hf|[(fields & -> & Hk)|(items & -> & Hk)]];
    unfold create_job; simpl.
  - by rewrite Hf.
  - destruct (bool_decide (fields ≠ [])); simpl; [|done].
    by rewrite Hk.
  - destruct (bool_decide (items ≠ [])); simpl; [|done].
    assert (existsb (is_JStr "main_python_file") items = false) as ->; [|done].
    apply not_true_is_false. intros (v & Hv & Hs)%existsb_exists.
    destruct v; simpl in Hs; try done. apply String.eqb_eq in Hs as ->.
    by apply Hk, list_elem_of_In.
Qed.

(** X12. A request object with ["main_python_file"] is submitted with its
    arguments, [[]] when it has none, on its cluster, the configured one
    when it names none; when the service accepts the job the answer is 201
    with the job id the service gave, the cluster and the file. *)
Theorem create_job_submits (fields : list (string * json)) (main_python_file : json)
    (job_id : string) (s s' : S) :
  let args := default (JArr []) (dict_get "args" fields) in
  let cluster_name := default (JStr CLUSTER_NAME) (dict_get "cluster_name" fields) in
  dict_get "main_python_file" fields = Some main_python_file →
  submit_job main_python_file args cluster_name s = (Ok job_id, s') →
  run_on (create_job' (Ok (JObj fields))) s
  = (Ok (JObj [("status", JStr "success");
               ("message", JStr "Job submitted successfully");
               ("job_id", JStr job_id);
               ("cluster", cluster_name);
               ("main_file", main_python_file)],
         201), s').
Proof.
  intros args cluster_name Hm Hs. unfold create_job. simpl.
  rewrite bool_decide_true by (by destruct fields). simpl.
  rewrite Hm. simpl. fold args. fold cluster_name. by rewrite Hs.
Qed.

(** X13. [create_job] never raises: it answers 201, 400 or 500. When
    reading the request body raises, or the service refuses the job, the
    answer is 500 with the text of the exception; a body that is a number,
    or [true], gives 500 too, and in the first and the last case the
    service is not called. *)
Theorem create_job_errors (s : S) :
  (∀ request_json, ∃ body code s',
     run_on (create_job' request_json) s = (Ok (body, code), s') ∧
     (code = 201 ∨ code = 400 ∨ code = 500)) ∧
  (∀ e, run_on (create_job' (Raise e)) s = (Ok (error_500 e), s)) ∧
  (∀ fields main_python_file e s',
     dict_get "main_python_file" fields = Some main_python_file →
     submit_job main_python_file
       (default (JArr []) (dict_get "args" fields))
       (default (JStr CLUSTER_NAME) (dict_get "cluster_name" fields)) s
     = (Raise e, s') →
     run_on (create_job' (Ok (JObj fields))) s = (Ok (error_500 e), s')) ∧
  (∀ data, data = JBool true ∨ (∃ n, data = JNum n ∧ n ≠ 0%Z) →
     run_on (create_job' (Ok data)) s
     = (Ok (error_500 (Exception (unsupported "in" data))), s)).
Proof.
  split_and!.
  - intros [data|e]; unfold create_job; simpl; [|eauto 10].
    destruct (json_truthy data); simpl; [|eauto 10].
    destruct (json_contains unsupported "main_python_file" data) as [[|]|e];
      simpl; [|eauto 10..].
    destruct (json_getitem unsupported data "main_python_file") as [m|e];
      simpl; [|eauto 10].
    destruct (json_get unsupported data "args" (JArr [])) as [a|e];
      simpl; [|eauto 10].
    destruct (json_get unsupported data "cluster_name" (JStr CLUSTER_NAME)) as [c|e];
      simpl; [|eauto 10].
    destruct (submit_job m a c s) as [[id|e] s']; simpl; eauto 10.
  - done.
  - intros fields m e s' Hm Hs. unfold create_job. simpl.
    rewrite bool_decide_true by (by destruct fields). simpl.
    rewrite Hm. simpl. by rewrite Hs.
  - intros data [->|(n & -> & Hn)]; unfold create_job; simpl; [done|].
    by rewrite bool_decide_true.
Qed.

End create_job_facts.

Section get_job_status_facts.
Context {S : Type}.
Context (get_job : string → S → result job * S).

(** X14. Without a [job_id] parameter, or with an empty one, the answer is
    400 and the job service is not called. *)
Theorem get_job_status_missing_job_id (args : gmap string string) (s : S) :
  args !! "job_id" = None ∨ args !! "job_id" = Some "" →
  run_on (get_job_status get_job args) s
  = (Ok (JObj [("error", JStr "Missing required parameter: job_id")], 400), s).
Proof. intros [E|E]; unfold get_job_status; simpl; by rewrite E. Qed.

Lemma job_response_flags (j : job) :
  dict_get "job_id" (job_response j) = Some (JStr (reference_job_id j)) ∧
  dict_get "status" (job_response j) = Some (JStr (state_name (status_state j))) ∧
  dict_get "cluster" (job_response j) = Some (JStr (placement_cluster_name j)) ∧
  dict_get "completed" (job_response j)
    = Some (JBool (bool_decide (status_state j = DONE ∨ status_state j = ERROR))) ∧
  dict_get "failed" (job_response j)
    = (if bool_decide (status_state j = ERROR) then Some (JBool true) else None).
Proof.
  destruct j as [id st details start cluster [[uri args]|] out].
  all: unfold job_response; simpl.
  all: repeat case_bool_decide; destruct st; try done.
  all: rewrite ?dict_get_set_eq; rewrite ?dict_get_set_ne by done.
  all: rewrite ?dict_get_set_eq; rewrite ?dict_get_set_ne by done.
  all: try done.
  all: split_and!; try done; naive_solver.
Qed.

(** X15. For a job the service returns, the answer is 200 and reports the
    job's id, state name and cluster; ["completed"] is true exactly in the
    states [DONE] and [ERROR], so a cancelled job is never completed, and
    ["failed"] is present, and true, exactly in the state [ERROR]. *)
Theorem get_job_status_flags (args : gmap string string) (job_id : string)
    (j : job) (s s' : S) :
  args !! "job_id" = Some job_id → job_id ≠ "" →
  get_job job_id s = (Ok j, s') →
  ∃ response,
    run_on (get_job_status get_job args) s = (Ok (JObj response, 200), s') ∧
    dict_get "job_id" response = Some (JStr (reference_job_id j)) ∧
    dict_get "status" response = Some (JStr (state_name (status_state j))) ∧
    dict_get "cluster" response = Some (JStr (placement_cluster_name j)) ∧
    dict_get "completed" response
      = Some (JBool (bool_decide (status_state j = DONE ∨ status_state j = ERROR))) ∧
    dict_get "failed" response
      = (if bool_decide (status_state j = ERROR) then Some (JBool true) else None).
Proof.
  intros Ea Hne Ej. exists (job_response j). split; [|apply job_response_flags].
  unfold get_job_status. simpl. rewrite Ea.
  destruct job_id as [|c job_id]; [done|]. simpl. by rewrite Ej.
Qed.

(** X16. When the job service raises, for an unknown job or a failed
    call, the answer is 500 with the text of the exception. *)
Theorem get_job_status_service_error (args : gmap string string) (job_id : string)
    (e : exn) (s s' : S) :
  args !! "job_id" = Some job_id → job_id ≠ "" →
  get_job job_id s = (Raise e, s') →
  run_on (get_job_status get_job args) s
  = (Ok (JObj [("status", JStr "error"); ("message", JStr (str_exn e))], 500), s').
Proof.
  intros Ea Hne Ej. unfold get_job_status. simpl. rewrite Ea.
  destruct job_id as [|c job_id]; [done|]. simpl. by rewrite Ej.
Qed.

End get_job_status_facts.

(** ** The other queries of problem 2 *)

Section dataframes.

Lemma sql_filter_filter {R} (cond : R → option bool) (df : list R) :
  Sql.filter cond df = filter (λ r, cond r = Some true) df.
Proof.
  unfold Sql.filter. induction df as [|r df IH]; [done|].
  simpl. rewrite filter_cons, IH. by case_bool_decide; case_decide.
Qed.

Lemma elem_of_sql_filter {R} (cond : R → option bool) (df : list R) (r : R) :
  r ∈ Sql.filter cond df ↔ r ∈ df ∧ cond r = Some true.
Proof. rewrite sql_filter_filter, list_elem_of_filter. tauto. Qed.

#[global] Instance count_ge_trans {K} : Transitive (@Col.count_ge K).
Proof. intros x y z. unfold Col.count_ge. lia. Qed.

#[global] Instance count_ge_total {K} : Total (@Col.count_ge K).
Proof. intros x y. unfold Col.count_ge. lia. Qed.

Lemma head_orderBy_max {K} (df : list (K * nat)) (row : K * nat) :
  head (Col.orderBy_count_desc df) = Some row →
  row ∈ df ∧ ∀ other, other ∈ df → other.2 ≤ row.2.
Proof.
  unfold Col.orderBy_count_desc. intros Hhead.
  pose proof (StronglySorted_merge_sort (@Col.count_ge K) df) as Hsorted.
  pose proof (merge_sort_Permutation (@Col.count_ge K) df) as Hperm.
  destruct (merge_sort Col.count_ge df) as [|x l]; [done|].
  injection Hhead as ->. apply StronglySorted_inv in Hsorted as [_ Hall].
  rewrite Forall_forall in Hall. split.
  - rewrite <-Hperm. left.
  - intros other. rewrite <-Hperm. intros [->|Hin]%elem_of_cons; [done|].
    by apply Hall.
Qed.

Lemma head_orderBy_None {K} (df : list (K * nat)) :
  head (Col.orderBy_count_desc df) = None → df = [].
Proof.
  unfold Col.orderBy_count_desc. intros Hhead.
  apply Permutation_nil. rewrite <-(merge_sort_Permutation Col.count_ge df).
  by destruct (merge_sort Col.count_ge df).
Qed.

Lemma elem_of_groupBy_count {R K} `{EqDecision K} (key : R → K) (df : list R) k n :
  (k, n) ∈ Col.groupBy_count key df ↔
  (∃ r, r ∈ df ∧ key r = k) ∧ n = length (filter (λ r, key r = k) df).
Proof.
  unfold Col.groupBy_count. rewrite list_elem_of_fmap.
  setoid_rewrite elem_of_remove_dups. setoid_rewrite list_elem_of_fmap. split.
  - intros (k' & [= -> ->] & r & -> & Hr). eauto.
  - intros ((r & Hr & <-) & ->). eauto.
Qed.

End dataframes.

Section queries.
Implicit Types (flights : list flight) (r : flight) (a : option string).

Lemma cancelled_in_month_true m r :
  cancelled_in_month m r = Some true ↔ cancelled_in m r.
Proof.
  unfold cancelled_in_month, cancelled_in, in_month_2021, Col.eq.
  destruct (FlightDate r) as [[y mo da]|], (Cancelled r) as [[|]|]; simpl;
    repeat case_bool_decide; simpl; split; try done;
    try (intros (_ & d & [= <-] & ? & ?); simpl in *; done);
    try (intros (? & d & ? & _); done).
  intros _. split; [done|]. eauto.
Qed.

Lemma cancellations_eq m flights a :
  cancellations m flights a
  = length (filter (λ r, Airline r = a) (Sql.filter (cancelled_in_month m) flights)).
Proof.
  unfold cancellations. rewrite sql_filter_filter, list_filter_filter.
  f_equal. apply list_filter_iff. intros r. rewrite cancelled_in_month_true. tauto.
Qed.

(** The airline a cancellation query returns has the most cancelled
    flights of the month. *)
Lemma most_canceled_in_month_spec m flights :
  ((∀ r, r ∈ flights → ¬ cancelled_in m r) →
     most_canceled_in_month m flights = Some "") ∧
  (∀ r, r ∈ flights → cancelled_in m r →
     0 < cancellations m flights (most_canceled_in_month m flights) ∧
     ∀ a, cancellations m flights a
          ≤ cancellations m flights (most_canceled_in_month m flights)).
Proof.
  unfold most_canceled_in_month. split.
  - intros Hno.
    assert (Sql.filter (cancelled_in_month m) flights = []) as ->; [|done].
    rewrite sql_filter_filter.
    induction flights as [|r flights IH]; [done|].
    rewrite filter_cons, decide_False
      by (rewrite cancelled_in_month_true; apply Hno; left).
    apply IH. intros r' Hr'. apply Hno. by right.
  - intros r Hr Hc%cancelled_in_month_true.
    destruct (head _) as [[a n]|] eqn:Hhead.
    + apply head_orderBy_max in Hhead as [Hin Hmax]. simpl.
      apply elem_of_groupBy_count in Hin as [(r' & Hr' & Ha) ->].
      rewrite !cancellations_eq. split.
      * assert (r' ∈ filter (λ r, Airline r = a)
                         (Sql.filter (cancelled_in_month m) flights)) as Hin
          by by apply list_elem_of_filter.
        destruct (filter _ _); [by apply elem_of_nil in Hin|simpl; lia].
      * intros b. rewrite cancellations_eq.
        destruct (filter (λ r, Airline r = b)
                    (Sql.filter (cancelled_in_month m) flights)) as [|r0 l] eqn:E;
          [simpl; lia|].
        rewrite <-E. apply (Hmax (b, _)). apply elem_of_groupBy_count.
        split; [|done]. exists r0.
        assert (r0 ∈ filter (λ r, Airline r = b)
                       (Sql.filter (cancelled_in_month m) flights)) as Hin
          by (rewrite E; left).
        apply list_elem_of_filter in Hin. tauto.
    + apply head_orderBy_None in Hhead.
      assert (Col.groupBy_count Airline (Sql.filter (cancelled_in_month m) flights)
              ≠ []); [|done].
      assert ((Airline r, length (filter (λ r', Airline r' = Airline r)
                 (Sql.filter (cancelled_in_month m) flights)))
              ∈ Col.groupBy_count Airline (Sql.filter (cancelled_in_month m) flights))
        as Hin.
      { apply elem_of_groupBy_count. split; [|done]. exists r.
        split; [|done]. by apply elem_of_sql_filter. }
      intros E. rewrite E in Hin. by apply elem_of_nil in Hin.
Qed.

(** X17. [air_flights_most_canceled_flights] returns the empty string when
    no flight of January 2021 was cancelled; otherwise it returns an airline
    with at least one such flight and with at least as many as any other
    airline. *)
Theorem most_canceled_january (flights : list flight) :
  ((∀ r, r ∈ flights → ¬ cancelled_in 1 r) →
     air_flights_most_canceled_flights flights = Some "") ∧
  (∀ r, r ∈ flights → cancelled_in 1 r →
     0 < cancellations 1 flights (air_flights_most_canceled_flights flights) ∧
     ∀ a, cancellations 1 flights a
          ≤ cancellations 1 flights (air_flights_most_canceled_flights flights)).
Proof. apply most_canceled_in_month_spec. Qed.

(** X18. The same for [air_flights_most_canceled_flights_november] and
    the cancelled flights of November 2021. *)
Theorem most_canceled_november (flights : list flight) :
  ((∀ r, r ∈ flights → ¬ cancelled_in 11 r) →
     air_flights_most_canceled_flights_november flights = Some "") ∧
  (∀ r, r ∈ flights → cancelled_in 11 r →
     0 < cancellations 11 flights (air_flights_most_canceled_flights_november flights) ∧
     ∀ a, cancellations 11 flights a
          ≤ cancellations 11 flights
              (air_flights_most_canceled_flights_november flights)).
Proof. apply most_canceled_in_month_spec. Qed.

Lemma diverted_in_november_true r :
  diverted_in_november r = Some true ↔
  Diverted r = Some true ∧
  ∃ d, FlightDate r = Some d ∧ year d = 2021%Z ∧ month d = 11%Z ∧
       (1 ≤ dayofmonth d ≤ 30)%Z.
Proof.
  unfold diverted_in_november, Col.eq, Col.ge, Col.le.
  destruct (FlightDate r) as [[y mo da]|], (Diverted r) as [[|]|]; simpl;
    repeat case_bool_decide; simpl; split; try done;
    try (intros (_ & d & [= <-] & ? & ? & ?); simpl in *; done || lia);
    try (intros (? & d & ? & _); done).
  intros _. split; [done|]. eexists. split; [done|]. simpl. lia.
Qed.

(** X19. [air_flights_diverted_flights] leaves out no diverted flight of
    November 2021: on a table whose dates are dates of the calendar its
    bounds on the day, 1 to 30, exclude nothing, and the result is the
    number of diverted flights of the month. Rows with a null date or
    a null [Diverted] are not counted. *)
Theorem diverted_counts_whole_november (flights : list flight) :
  (∀ r d, r ∈ flights → FlightDate r = Some d → calendar_date d) →
  air_flights_diverted_flights flights
  = Z.of_nat (length (filter (diverted_in 11) flights)).
Proof.
  intros Hcal. unfold air_flights_diverted_flights.
  rewrite sql_filter_filter. do 2 f_equal.
  induction flights as [|r flights IH]; [done|].
  rewrite !filter_cons, IH by (intros r' d Hr'; apply Hcal; by right).
  assert (diverted_in_november r = Some true ↔ diverted_in 11 r) as Hiff.
  { rewrite diverted_in_november_true. unfold diverted_in, in_month_2021. split.
    - intros (? & d & ? & ? & ? & _). eauto.
    - intros (? & d & Hd & Hy & Hm). split; [done|]. exists d.
      destruct (Hcal r d) as [_ Hday]; [left|done|].
      rewrite Hm in Hday. unfold days_in_month in Hday. simpl in Hday.
      split_and!; [done..|lia|lia]. }
  destruct (decide (diverted_in_november r = Some true)) as [H|H],
           (decide (diverted_in 11 r)) as [H'|H']; try done; tauto.
Qed.

(** X20. [air_flights_missing_departure_time] is the number of distinct
    dates that have a row without departure time: for every duplicate-free
    list of exactly those dates the result is its length. The fallback to
    0 never changes the count, and rows with a null date add nothing. *)
Theorem missing_departure_time_counts_dates (flights : list flight) (dates : list date) :
  NoDup dates →
  (∀ d, d ∈ dates ↔ ∃ r, r ∈ flights ∧ DepTime r = None ∧ FlightDate r = Some d) →
  air_flights_missing_departure_time flights = Z.of_nat (length dates).
Proof.
  intros Hnd Hdates. unfold air_flights_missing_departure_time, Col.countDistinct.
  assert (length (remove_dups (omap FlightDate
            (Sql.filter (λ r, Col.isNull (DepTime r)) flights))) = length dates) as ->.
  { apply Permutation_length, NoDup_Permutation; [apply NoDup_remove_dups|done|].
    intros d. rewrite elem_of_remove_dups, list_elem_of_omap, Hdates.
    setoid_rewrite elem_of_sql_filter. unfold Col.isNull.
    split; intros (r & H1 & H2); exists r.
    - destruct H1 as [Hr Hn]. injection Hn as Hn.
      apply bool_decide_eq_true in Hn. done.
    - destruct H2 as [Hn Hd]. split_and!; [done| |done].
      by rewrite bool_decide_true. }
  case_bool_decide as Hz; [done|]. by rewrite Hz.
Qed.

End queries.

(** ** Paths *)

Section strings.
Implicit Types (s t u : string) (c : ascii).

Lemma append_assoc s t u : (s +:+ t) +:+ u = s +:+ (t +:+ u).
Proof.
  induction s as [|a s IH]; [done|].
  change (String a ((s +:+ t) +:+ u) = String a (s +:+ (t +:+ u))).
  by rewrite IH.
Qed.

Lemma length_rstrip c s : String.length (rstrip c s) ≤ String.length s.
Proof.
  induction s as [|a s IH]; [done|]. simpl.
  destruct (rstrip c s); [destruct (Ascii.eqb a c)|]; simpl in *; lia.
Qed.

Lemma rstrip_snoc c s : rstrip c (s +:+ String c "") = rstrip c s.
Proof.
  induction s as [|a s IH]; simpl.
  - by rewrite Ascii.eqb_refl.
  - by rewrite IH.
Qed.

Lemma rstrip_idemp c s : rstrip c (rstrip c s) = rstrip c s.
Proof.
  induction s as [|a s IH]; [done|]. simpl.
  destruct (rstrip c s) as [|b t] eqn:E.
  - destruct (Ascii.eqb a c) eqn:Ea; simpl; [done|]. by rewrite Ea.
  - simpl in *. by rewrite IH.
Qed.

Lemma rstrip_no_trailing c s p : rstrip c s ≠ p +:+ String c "".
Proof.
  intros E. pose proof (rstrip_idemp c s) as Hi.
  rewrite E, rstrip_snoc in Hi.
  pose proof (length_rstrip c p) as Hl. rewrite Hi, length_append in Hl.
  simpl in Hl. lia.
Qed.

Lemma lstrip_no_leading c s t : lstrip c s ≠ String c t.
Proof.
  induction s as [|a s IH]; [done|]. simpl.
  destruct (Ascii.eqb_spec a c) as [->|Hne]; [done|]. by intros [= ->].
Qed.

Lemma rstrip_keeps_head c a s :
  a ≠ c → ∃ t, rstrip c (String a s) = String a t.
Proof.
  intros Hne. simpl. destruct (rstrip c s); [|eauto].
  rewrite (proj2 (Ascii.eqb_neq _ _) Hne). eauto.
Qed.

Lemma strip_no_leading c s t : strip c s ≠ String c t.
Proof.
  unfold strip. pose proof (lstrip_no_leading c s) as Hl.
  destruct (lstrip c s) as [|a u] eqn:E; [done|].
  destruct (decide (a = c)) as [->|Hne]; [by destruct (Hl u)|].
  destruct (rstrip_keeps_head c a u Hne) as [t' ->]. by intros [= ->].
Qed.

Lemma lstrip_cons c s : lstrip c (String c s) = lstrip c s.
Proof. simpl. by rewrite Ascii.eqb_refl. Qed.

Lemma lstrip_snoc c s :
  lstrip c (s +:+ String c "") =
  if decide (lstrip c s = "") then "" else lstrip c s +:+ String c "".
Proof.
  induction s as [|a s IH]; simpl.
  - by rewrite Ascii.eqb_refl.
  - destruct (Ascii.eqb a c); [done|]. by rewrite decide_False.
Qed.

Lemma strip_cons c s : strip c (String c s) = strip c s.
Proof. unfold strip. by rewrite lstrip_cons. Qed.

Lemma strip_snoc c s : strip c (s +:+ String c "") = strip c s.
Proof.
  unfold strip. rewrite lstrip_snoc. case_decide as E.
  - by rewrite E.
  - apply rstrip_snoc.
Qed.

Lemma lstrip_id c a s : a ≠ c → lstrip c (String a s) = String a s.
Proof. intros Hne. simpl. by rewrite (proj2 (Ascii.eqb_neq _ _) Hne). Qed.

Lemma lstrip_slashes s : ∃ n, s = slashes n +:+ lstrip "/" s.
Proof.
  induction s as [|a s [n IH]]; [by exists 0|]. simpl.
  destruct (Ascii.eqb_spec a "/"%char) as [->|Ha].
  - exists (S n). change (String "/" s = String "/" (slashes n +:+ lstrip "/" s)).
    by f_equal.
  - by exists 0.
Qed.

Lemma rstrip_slashes s : ∃ m, s = rstrip "/" s +:+ slashes m.
Proof.
  induction s as [|a s [m IH]]; [by exists 0|]. simpl.
  destruct (rstrip "/" s) as [|b t] eqn:E.
  - change (s = slashes m) in IH.
    destruct (Ascii.eqb_spec a "/"%char) as [->|Ha].
    + exists (S m). change (String "/" s = String "/" (slashes m)). by f_equal.
    + exists m. change (String a s = String a (slashes m)). by f_equal.
  - exists m. change (String a s = String a (String b t +:+ slashes m)).
    by f_equal.
Qed.

Lemma strip_slashes_l n s : strip "/" (slashes n +:+ s) = strip "/" s.
Proof.
  induction n as [|n IH]; [done|].
  change (strip "/" (String "/" (slashes n +:+ s)) = strip "/" s).
  by rewrite strip_cons.
Qed.

Lemma strip_slashes_r m s : strip "/" (s +:+ slashes m) = strip "/" s.
Proof.
  revert s. induction m as [|m IH]; intros s.
  - f_equal. induction s as [|a s IHs]; [done|].
    change (String a (s +:+ "") = String a s). by f_equal.
  - change (slashes (S m)) with ("/" +:+ slashes m).
    by rewrite <-append_assoc, IH, strip_snoc.
Qed.

Lemma rstrip_id c s : (∀ p, s ≠ p +:+ String c "") → rstrip c s = s.
Proof.
  induction s as [|a s IH]; [done|]. intros Hs. simpl.
  destruct s as [|b s].
  - simpl. destruct (Ascii.eqb_spec a c) as [->|Ha]; [|done].
    by destruct (Hs "").
  - rewrite IH; [done|]. intros p E. apply (Hs (String a p)). simpl. by rewrite E.
Qed.

Lemma strip_id s :
  (∀ t, s ≠ "/" +:+ t) → (∀ p, s ≠ p +:+ "/") → strip "/" s = s.
Proof.
  intros Hl Hr. unfold strip. destruct s as [|a s]; [done|].
  rewrite lstrip_id by (intros ->; by destruct (Hl s)).
  by apply rstrip_id.
Qed.

(** X21. [strip("/")], which [gcs] applies to every part, removes the
    slashes around a part and nothing else: the part is some slashes, then
    the result, then some slashes, and the result neither starts nor ends
    with a slash. The result is the only string of which this holds. *)
Theorem strip_removes_outer_slashes (s : string) :
  (∃ n m, s = slashes n +:+ strip "/" s +:+ slashes m) ∧
  (∀ t, strip "/" s ≠ "/" +:+ t) ∧
  (∀ p, strip "/" s ≠ p +:+ "/") ∧
  (∀ n m t, s = slashes n +:+ t +:+ slashes m →
     (∀ u, t ≠ "/" +:+ u) → (∀ u, t ≠ u +:+ "/") → strip "/" s = t).
Proof.
  split_and!.
  - destruct (lstrip_slashes s) as [n Hn].
    destruct (rstrip_slashes (lstrip "/" s)) as [m Hm].
    exists n, m. unfold strip. by rewrite <-Hm.
  - apply strip_no_leading.
  - intros p. apply rstrip_no_trailing.
  - intros n m t -> Hl Hr.
    by rewrite strip_slashes_l, strip_slashes_r, strip_id.
Qed.

End strings.

Section gcs_paths.
Context (GCS_BUCKET : option string).

Lemma gcs_same_parts parts parts' :
  strip "/" <$> omap id parts = strip "/" <$> omap id parts' →
  gcs GCS_BUCKET parts = gcs GCS_BUCKET parts'.
Proof. unfold gcs. by intros ->. Qed.

(** X22. [gcs] does not depend on slashes around its parts, and skips a
    part that is [None]: a slash added before or after any part gives
    the same path. *)
Theorem gcs_ignores_outer_slashes (before after : list (option string)) (p : string) :
  gcs GCS_BUCKET (before ++ Some ("/" +:+ p) :: after)
    = gcs GCS_BUCKET (before ++ Some p :: after) ∧
  gcs GCS_BUCKET (before ++ Some (p +:+ "/") :: after)
    = gcs GCS_BUCKET (before ++ Some p :: after) ∧
  gcs GCS_BUCKET (before ++ None :: after) = gcs GCS_BUCKET (before ++ after).
Proof.
  assert (∀ q, strip "/" <$> omap id (Some q :: after)
               = strip "/" q :: (strip "/" <$> omap id after)) as Hcons by done.
  split_and!; apply gcs_same_parts; rewrite !omap_app, !fmap_app.
  - rewrite !Hcons. change ("/" +:+ p) with (String "/" p). by rewrite strip_cons.
  - by rewrite !Hcons, strip_snoc.
  - done.
Qed.

End gcs_paths.

(** ** More on the sink *)

Section sink_more.
Context {Obj : Type} (json_str_of : Obj → string).


(** X28. [delete_gcs_path] never raises and prints one line. When the
    path is a URI it removes what lies at or below the name of the URI's
    path component, and nothing else; when the URI constructor or the file
    system raises, the text of the exception is printed and the store is
    left as it is. Deleting where nothing lies leaves the store as it is. *)
Theorem delete_gcs_path_never_raises (spark : SparkSession) (p : string) (w : world) :
  ∃ w' line,
    run (delete_gcs_path spark p) w = (Ok (), w') ∧
    stdout w' = stdout w ++ [line] ∧
    (∀ k, delete_target spark p = Ok k →
       ∀ x, objects w' !! x = if decide (under k x) then None else objects w !! x) ∧
    (∀ e, delete_target spark p = Raise e →
       objects w' = objects w ∧
       line = " Error deleting " +:+ p +:+ ": " +:+ str_exn e) ∧
    ((∀ k x, delete_target spark p = Ok k → under k x → objects w !! x = None) →
       objects w' = objects w).
Proof.
  rewrite delete_gcs_path_run. unfold after_delete.
  destruct (delete_target spark p) as [k|e]; eexists _, _;
    (split; [done|]); (split; [done|]); simpl; split_and!; try done.
  - intros k' [= <-] x. apply lookup_cleared.
  - intros Hno. apply cleared_id, nothing_under. intros x Hx. by apply (Hno k).
  - by intros e' [= <-].
Qed.

End sink_more.

(** ** [main] *)

Section main_facts.
Context (spark : SparkSession).
Context (GCS_BUCKET : option string) (GCS_BASE_PATH : string).
Context (textFile : string → result (list string)).
Context (read_csv : string → result (list flight)).
Context (float_str : float → string).
Context (json_p1 : gmap string p1_entry → string).
Context (json_p2 : list (string * string) → string).

#[local] Abbreviation main' :=
  (main spark GCS_BUCKET GCS_BASE_PATH textFile read_csv float_str json_p1 json_p2).
#[local] Abbreviation path' name := (gcs GCS_BUCKET [Some GCS_BASE_PATH; Some name]).

Lemma run_bind {A B} (m : io A) (f : A → io B) w :
  run (m ≫= f) w =
  match run m w with
  | (Ok a, w') => run (f a) w'
  | (Raise e, w') => (Raise e, w')
  end.
Proof. done. Qed.

Lemma run_io_of {A} (r : result A) w : run (io_of r) w = (r, w).
Proof. done. Qed.

Lemma run_print line w :
  run (print line) w = (Ok (), World (objects w) (stdout w ++ [line])).
Proof. done. Qed.

(** The run of [main], step by step. *)
Lemma main_run w :
  run main' w =
  match
    flights_data ← textFile (path' "flights_data.txt");
    result_problem1 ← co_occurring_airline_pairs_by_origin flights_data;
    formatted_p1 result_problem1
  with
  | Raise e => (Raise e, World (objects w) (stdout w ++ [banner_1]))
  | Ok formatted =>
      match run (save_json_to_gcs json_p1 spark formatted (path' "problem1"))
                (World (objects w) (stdout w ++ [banner_1])) with
      | (Raise e, w1) => (Raise e, w1)
      | (Ok _, w1) =>
          let w2 := World (objects w1) (stdout w1 ++ [banner_2]) in
          match read_csv (path' "flights_data.csv") with
          | Raise e => (Raise e, w2)
          | Ok flights =>
              run (save_json_to_gcs json_p2 spark (result_problem2 float_str flights)
                     (path' "problem2")) w2
          end
      end
  end.
Proof.
  unfold main. cbv zeta.
  rewrite run_bind, run_print. cbv beta iota.
  rewrite run_bind, run_io_of.
  destruct (textFile _) as [flights_data|e]; cbv beta iota; [|done].
  rewrite run_bind, run_io_of.
  change (Ok flights_data ≫= ?f) with (f flights_data). cbv beta.
  destruct (co_occurring_airline_pairs_by_origin flights_data) as [r|e];
    cbv beta iota; [|done].
  rewrite run_bind, run_io_of.
  change (Ok r ≫= ?f) with (f r). cbv beta.
  destruct (formatted_p1 r) as [formatted|e]; cbv beta iota; [|done].
  rewrite run_bind.
  destruct (run (save_json_to_gcs _ _ _ _) _) as [[[]|e] w1]; [|done].
  rewrite run_bind, run_print. cbv beta iota.
  rewrite run_bind, run_io_of.
  by destruct (read_csv _).
Qed.

(** [main] once problem 1 has its document. *)
Lemma main_run_formatted w flights_data r formatted :
  textFile (path' "flights_data.txt") = Ok flights_data →
  co_occurring_airline_pairs_by_origin flights_data = Ok r →
  formatted_p1 r = Ok formatted →
  run main' w =
  match run (save_json_to_gcs json_p1 spark formatted (path' "problem1"))
            (World (objects w) (stdout w ++ [banner_1])) with
  | (Raise e, w1) => (Raise e, w1)
  | (Ok _, w1) =>
      let w2 := World (objects w1) (stdout w1 ++ [banner_2]) in
      match read_csv (path' "flights_data.csv") with
      | Raise e => (Raise e, w2)
      | Ok flights =>
          run (save_json_to_gcs json_p2 spark (result_problem2 float_str flights)
                 (path' "problem2")) w2
      end
  end.
Proof.
  intros E1 E2 E3. rewrite main_run, E1.
  change (Ok flights_data ≫= ?f) with (f flights_data). cbv beta. rewrite E2.
  change (Ok r ≫= ?f) with (f r). cbv beta. by rewrite E3.
Qed.

(** X24. When problem 1 fails, because the input cannot be read,
    a line has too few fields or there are fewer than ten pairs, [main]
    raises before it touches the store: nothing is deleted and nothing is
    written, and an older result stays where it was. *)
Theorem main_problem1_failure_keeps_store (w : world) (e : exn) :
  (textFile (path' "flights_data.txt") = Raise e ∨
   ∃ flights_data, textFile (path' "flights_data.txt") = Ok flights_data ∧
     (co_occurring_airline_pairs_by_origin flights_data = Raise e ∨
      ∃ r, co_occurring_airline_pairs_by_origin flights_data = Ok r ∧
           length r < 10 ∧ e = IndexError)) →
  run main' w = (Raise e, World (objects w) (stdout w ++ [banner_1])).
Proof.
  rewrite main_run. intros [E|(flights_data & E & H)]; rewrite E; simpl; [done|].
  destruct H as [E'|(r & E' & Hr & ->)]; rewrite E'; simpl; [done|].
  by rewrite formatted_p1_eq, decide_False by lia.
Qed.

(** X25. When problem 1 succeeds, the delete and the write of its output
    path act on one name, and the table of problem 2 cannot be read, [main]
    raises after the first document is published: that name holds the new
    problem-1 document, and every name outside it, so all of problem 2, is
    as it was before the run. *)
Theorem main_publishes_problem1_before_problem2 (w : world) (e : exn)
    (flights_data : list string) (r : list pair_count)
    (formatted : gmap string p1_entry) (k1 : string) :
  textFile (path' "flights_data.txt") = Ok flights_data →
  co_occurring_airline_pairs_by_origin flights_data = Ok r →
  formatted_p1 r = Ok formatted →
  acts_on spark (path' "problem1") k1 →
  read_csv (path' "flights_data.csv") = Raise e →
  ∃ w',
    run main' w = (Raise e, w') ∧
    objects w' !! k1 = Some [[json_p1 formatted]] ∧
    (∀ k, ¬ under k1 k → objects w' !! k = objects w !! k).
Proof.
  intros E1 E2 E3 Hk1 E4. rewrite (main_run_formatted _ _ _ _ E1 E2 E3).
  rewrite (save_json_to_gcs_run _ _ _ _ k1) by done. cbv beta iota zeta.
  rewrite E4. eexists. split; [done|]. simpl. split.
  - by rewrite lookup_insert_eq.
  - intros k Hk. assert (k1 ≠ k) by (intros <-; apply Hk, under_refl).
    by rewrite lookup_insert_ne, lookup_cleared, decide_False.
Qed.

(** X26. When both problems succeed, and for each of the two output paths
    the delete and the write act on one name, neither name below the
    other, [main] returns, and the store holds the problem-1 document and
    the five answers of problem 2, keyed ["q1"] to ["q5"], each as the one
    part file of its name; names outside the two are as before. *)
Theorem main_publishes_both (w : world) (flights_data : list string)
    (r : list pair_count) (formatted : gmap string p1_entry) (flights : list flight)
    (k1 k2 : string) :
  textFile (path' "flights_data.txt") = Ok flights_data →
  co_occurring_airline_pairs_by_origin flights_data = Ok r →
  formatted_p1 r = Ok formatted →
  read_csv (path' "flights_data.csv") = Ok flights →
  acts_on spark (path' "problem1") k1 →
  acts_on spark (path' "problem2") k2 →
  ¬ under k1 k2 → ¬ under k2 k1 →
  ∃ w',
    run main' w = (Ok (), w') ∧
    objects w' !! k1 = Some [[json_p1 formatted]] ∧
    objects w' !! k2 = Some [[json_p2 (result_problem2 float_str flights)]] ∧
    (result_problem2 float_str flights).*1 = ["q1"; "q2"; "q3"; "q4"; "q5"] ∧
    (∀ k, ¬ under k1 k → ¬ under k2 k → objects w' !! k = objects w !! k).
Proof.
  intros E1 E2 E3 E4 Hk1 Hk2 H12 H21.
  rewrite (main_run_formatted _ _ _ _ E1 E2 E3).
  rewrite (save_json_to_gcs_run _ _ _ _ k1) by done. cbv beta iota zeta.
  rewrite E4, (save_json_to_gcs_run _ _ _ _ k2) by done.
  eexists. split; [done|]. simpl.
  assert (k2 ≠ k1) by (intros ->; apply H12, under_refl).
  split_and!.
  - rewrite lookup_insert_ne, lookup_cleared, decide_False by done.
    by rewrite lookup_insert_eq.
  - by rewrite lookup_insert_eq.
  - done.
  - intros k Hk1' Hk2'.
    assert (k1 ≠ k) by (intros <-; apply Hk1', under_refl).
    assert (k2 ≠ k) by (intros <-; apply Hk2', under_refl).
    rewrite lookup_insert_ne, lookup_cleared, decide_False by done.
    by rewrite lookup_insert_ne, lookup_cleared, decide_False.
Qed.

(** X29. An old result can stop the job. When problem 1 succeeds and
    its output name holds an older result that the delete does not reach,
    since the path component of the URI names something else or the path
    string is no URI, [main] raises [FileAlreadyExistsException] at the
    first write: the older result stays and problem 2 is not computed. *)
Theorem main_stops_at_old_result (w : world) (flights_data : list string)
    (r : list pair_count) (formatted : gmap string p1_entry) (k1 : string)
    (old : list (list string)) :
  textFile (path' "flights_data.txt") = Ok flights_data →
  co_occurring_airline_pairs_by_origin flights_data = Ok r →
  formatted_p1 r = Ok formatted →
  hadoop_Path spark (path' "problem1") = Ok k1 →
  (∀ k', delete_target spark (path' "problem1") = Ok k' → ¬ under k' k1) →
  objects w !! k1 = Some old →
  ∃ w',
    run main' w = (Raise (FileAlreadyExistsException k1), w') ∧
    objects w' !! k1 = Some old.
Proof.
  intros E1 E2 E3 Hk1 Hmiss Hold.
  rewrite (main_run_formatted _ _ _ _ E1 E2 E3), save_json_to_gcs_bind.
  assert (objects (after_delete spark (path' "problem1")
                     (World (objects w) (stdout w ++ [banner_1]))) !! k1 = Some old)
    as Hkeep.
  { rewrite lookup_after_delete. simpl.
    destruct (delete_target spark (path' "problem1")) as [k'|e]; [|done].
    by rewrite decide_False by by apply Hmiss. }
  rewrite (saveAsTextFile_exists _ _ _ k1 _ k1);
    [|done|apply under_refl|by rewrite Hkeep].
  eexists. split; [done|]. exact Hkeep.
Qed.

End main_facts.

(** ** The further properties at concrete inputs *)

Section more_examples.

Lemma create_job_missing_field_witness :
  run_on (create_job example_unsupported "cluster-dataproc" example_submit_job
            (Ok (JObj [("args", JArr [JStr "x"])]))) 0
  = (Ok (JObj [("error", JStr "Missing required field: main_python_file")], 400), 0).
Proof.
  apply (create_job_missing_field example_unsupported "cluster-dataproc"
           example_submit_job).
  right; left. eexists. split; reflexivity.
Defined.

Lemma create_job_submits_witness :
  run_on (create_job example_unsupported "cluster-dataproc" example_submit_job
            (Ok (JObj [("main_python_file", JStr "gs://bucket/code_final_v1.py")]))) 3
  = (Ok (JObj [("status", JStr "success");
               ("message", JStr "Job submitted successfully");
               ("job_id", JStr "job-3");
               ("cluster", JStr "cluster-dataproc");
               ("main_file", JStr "gs://bucket/code_final_v1.py")],
         201), 4).
Proof.
  refine (create_job_submits example_unsupported "cluster-dataproc"
            example_submit_job
            [("main_python_file", JStr "gs://bucket/code_final_v1.py")]
            (JStr "gs://bucket/code_final_v1.py") "job-3" 3 4 _ _); reflexivity.
Defined.

Lemma get_job_status_missing_job_id_witness :
  run_on (get_job_status example_get_job {["job_id" := ""]}) 0
  = (Ok (JObj [("error", JStr "Missing required parameter: job_id")], 400), 0).
Proof.
  refine (get_job_status_missing_job_id example_get_job {["job_id" := ""]} 0 _).
  right. reflexivity.
Defined.

Lemma get_job_status_flags_witness :
  ∃ response,
    run_on (get_job_status example_get_job {["job_id" := "job-0"]}) 0
    = (Ok (JObj response, 200), 0) ∧
    dict_get "completed" response = Some (JBool true) ∧
    dict_get "failed" response = None.
Proof.
  destruct (get_job_status_flags example_get_job {["job_id" := "job-0"]}
              "job-0" example_job 0 0)
    as (response & Hrun & _ & _ & _ & Hc & Hf); [reflexivity|done|reflexivity|].
  exists response. split_and!; [exact Hrun|exact Hc|exact Hf].
Defined.

Lemma get_job_status_service_error_witness :
  run_on (get_job_status example_get_job {["job_id" := "job-9"]}) 0
  = (Ok (JObj [("status", JStr "error");
               ("message", JStr "404 Not found: Job job-9")], 500), 0).
Proof.
  refine (get_job_status_service_error example_get_job {["job_id" := "job-9"]}
            "job-9" (Exception "404 Not found: Job job-9") 0 0 _ _ _);
    [reflexivity|done|reflexivity].
Defined.

Lemma example_flights_calendar r d :
  r ∈ example_flights → FlightDate r = Some d → calendar_date d.
Proof.
  intros Hr%list_elem_of_In Hd. simpl in Hr.
  destruct Hr as [<-|[<-|[<-|[<-|[]]]]]; simplify_eq/=; by vm_compute.
Qed.

Lemma diverted_counts_whole_november_witness :
  air_flights_diverted_flights example_flights = 1%Z.
Proof.
  refine (diverted_counts_whole_november example_flights _).
  apply example_flights_calendar.
Defined.

Lemma missing_departure_time_counts_dates_witness :
  air_flights_missing_departure_time example_flights = 2%Z.
Proof.
  refine (missing_departure_time_counts_dates example_flights
            [Date 2021 11 30; Date 2021 11 2] _ _).
  - by_computation.
  - intros d. split.
    + intros Hd%list_elem_of_In. simpl in Hd.
      destruct Hd as [<-|[<-|[]]]; eexists.
      * split; [apply list_elem_of_here|split; reflexivity].
      * split; [apply list_elem_of_further, list_elem_of_here|split; reflexivity].
    + intros (r & Hr%list_elem_of_In & Hn & Hd). simpl in Hr.
      destruct Hr as [<-|[<-|[<-|[<-|[]]]]]; simplify_eq/=.
      * apply list_elem_of_here.
      * apply list_elem_of_further, list_elem_of_here.
Defined.

Lemma main_problem1_failure_keeps_store_witness :
  run (main example_spark (Some "bucket") "Project_dataproc" (λ _, Ok example_lines)
         (λ _, Ok []) (λ _, "0.0") (λ _, "{}") (λ _, "[]"))
      (World {["gs://bucket/Project_dataproc/problem1" := [["old"]]]} [])
  = (Raise IndexError,
     World {["gs://bucket/Project_dataproc/problem1" := [["old"]]]} [banner_1]).
Proof.
  refine (main_problem1_failure_keeps_store example_spark (Some "bucket")
            "Project_dataproc"
            (λ _, Ok example_lines) (λ _, Ok []) (λ _, "0.0") (λ _, "{}") (λ _, "[]")
            (World {["gs://bucket/Project_dataproc/problem1" := [["old"]]]} [])
            IndexError _).
  right. exists example_lines. split; [reflexivity|].
  right. exists example_result. split_and!; [by vm_compute|simpl; lia|reflexivity].
Defined.

Lemma main_publishes_problem1_before_problem2_witness :
  ∃ w',
    run (main example_spark (Some "bucket") "Project_dataproc" (λ _, Ok five_airlines)
           (λ _, Raise (Exception "Path does not exist"))
           (λ _, "0.0") (λ _, "{}") (λ _, "[]"))
        (World {["gs://bucket/Project_dataproc/problem1" := [["old"]]]} [])
    = (Raise (Exception "Path does not exist"), w') ∧
    objects w' !! "gs://bucket/Project_dataproc/problem1" = Some [["{}"]] ∧
    objects w' !! "gs://bucket/Project_dataproc/problem2" = None.
Proof.
  destruct (main_publishes_problem1_before_problem2 example_spark (Some "bucket")
              "Project_dataproc"
              (λ _, Ok five_airlines) (λ _, Raise (Exception "Path does not exist"))
              (λ _, "0.0") (λ _, "{}") (λ _, "[]")
              (World {["gs://bucket/Project_dataproc/problem1" := [["old"]]]} [])
              (Exception "Path does not exist") five_airlines ten_pairs
              (p1_dict (take 10 ten_pairs) (seq 0 10) ∅)
              "gs://bucket/Project_dataproc/problem1")
    as (w' & Hrun & H1 & H2);
    [reflexivity|by vm_compute|by vm_compute|split; reflexivity|reflexivity|].
  exists w'. split_and!; [exact Hrun|exact H1|].
  rewrite H2; [reflexivity|by_computation].
Defined.

Lemma main_publishes_both_witness :
  ∃ w',
    run (main example_spark (Some "bucket") "Project_dataproc" (λ _, Ok five_airlines)
           (λ _, Ok example_flights) (λ _, "0.0") (λ _, "{}") (λ _, "[]"))
        (World {["gs://bucket/Project_dataproc/problem1" := [["old"]]]} [])
    = (Ok (), w') ∧
    objects w' !! "gs://bucket/Project_dataproc/problem1" = Some [["{}"]] ∧
    objects w' !! "gs://bucket/Project_dataproc/problem2" = Some [["[]"]].
Proof.
  destruct (main_publishes_both example_spark (Some "bucket") "Project_dataproc"
              (λ _, Ok five_airlines) (λ _, Ok example_flights)
              (λ _, "0.0") (λ _, "{}") (λ _, "[]")
              (World {["gs://bucket/Project_dataproc/problem1" := [["old"]]]} [])
              five_airlines ten_pairs
              (p1_dict (take 10 ten_pairs) (seq 0 10) ∅) example_flights
              "gs://bucket/Project_dataproc/problem1"
              "gs://bucket/Project_dataproc/problem2")
    as (w' & Hrun & H1 & H2 & _);
    [reflexivity|by vm_compute|by vm_compute|reflexivity
    |split; reflexivity|split; reflexivity|by_computation|by_computation|].
  exists w'. split_and!; [exact Hrun|exact H1|exact H2].
Defined.


Lemma main_stops_at_old_result_witness :
  ∃ w',
    run (main example_spark (Some "bucket") "my base" (λ _, Ok five_airlines)
           (λ _, Ok example_flights) (λ _, "0.0") (λ _, "{}") (λ _, "[]"))
        (World {["gs://bucket/my base/problem1" := [["old"]]]} [])
    = (Raise (FileAlreadyExistsException "gs://bucket/my base/problem1"), w') ∧
    objects w' !! "gs://bucket/my base/problem1" = Some [["old"]].
Proof.
  refine (main_stops_at_old_result example_spark (Some "bucket") "my base"
            (λ _, Ok five_airlines) (λ _, Ok example_flights)
            (λ _, "0.0") (λ _, "{}") (λ _, "[]")
            (World {["gs://bucket/my base/problem1" := [["old"]]]} [])
            five_airlines ten_pairs (p1_dict (take 10 ten_pairs) (seq 0 10) ∅)
            "gs://bucket/my base/problem1" [["old"]] _ _ _ _ _ _).
  - reflexivity.
  - by vm_compute.
  - by vm_compute.
  - reflexivity.
  - intros k' Hk'. vm_compute in Hk'. discriminate Hk'.
  - reflexivity.
Defined.

End more_examples.
